(** * grest: the Router of router.go

    A shallow embedding of [router.go] (package [grest]) and the
    properties of its registration and dispatch routines.

    - Go's [*http.Request] and [http.ResponseWriter] are shared mutable
      objects, and the closures [next] and [done] built by [route] share
      two mutable locals, [idx] and [allowOptionsMethods].  All of them
      live in one [world] that every handler and every continuation
      transforms: a continuation invoked twice resumes from the cursor
      that the first invocation left behind, as in Go.
    - A handler is what its method [HTTPHandle] does: a function from the
      continuation [next] to a transformation of the world.  The body of
      an [HTTPHandleFunc] is a finite program that may call [next] any
      number of times, before and after other effects.
    - Registration comes before dispatch.  A [*Router] or [*Route] held by
      a layer is represented by its value when registration returns; the
      assignment that [Use] makes through the pointer of a mounted router
      is returned by the model of [Use].
    - layer.go and route.go are not among the sources.  What [router.go]
      calls in them is gathered in the class [Collaborators]; the theorems
      hold for every instance, and [Modelled] gives the instance that the
      specification describes, on which the examples run. *)

From Stdlib Require Import String Ascii.
From stdpp Require Import base list strings.

Local Open Scope string_scope.
Local Open Scope list_scope.

(** ** Strings ([strings] package) *)

Module strings.

(** [stripPrefix prefix s] is [Some (s[len(prefix):])] when [s] starts
    with [prefix]. *)
Fixpoint stripPrefix (prefix s : string) : option string :=
  match prefix with
  | EmptyString => Some s
  | String a prefix' =>
      match s with
      | EmptyString => None
      | String b s' => if Ascii.eqb a b then stripPrefix prefix' s' else None
      end
  end.

Definition HasPrefix (s prefix : string) : bool :=
  match stripPrefix prefix s with Some _ => true | None => false end.

(** [strings.TrimPrefix]: [s] without the leading [prefix]; [s] itself
    when it does not start with [prefix]. *)
Definition TrimPrefix (s prefix : string) : string :=
  match stripPrefix prefix s with Some rest => rest | None => s end.

(** [strings.Join]. *)
Fixpoint Join (elems : list string) (sep : string) : string :=
  match elems with
  | [] => ""
  | [e] => e
  | e :: elems' => e +:+ sep +:+ Join elems' sep
  end.

End strings.

(** ** Requests, responses and the world *)

(** Go's [error]; [nil] is [None] of [option error]. *)
Definition error := string.

(** [url.Values], a [map[string][]string]; kept as an association list
    because the order in which parameters are captured is observable. *)
Definition Values := list (string * list string).

(** The fields of [*http.Request] that the router reads. *)
Record Request := mkRequest {
  Method : string;
  URL_Path : string;
  URL_Query : Values;
}.

(** What has been sent through an [http.ResponseWriter]. *)
Record ResponseWriter := mkResponse {
  Header : list (string * string);
  Status : option nat;
  Body : list string;
}.

Module http.

Definition StatusOK := 200.
Definition StatusNotFound := 404.
Definition StatusInternalServerError := 500.

(** [res.Header().Add(key, value)]. *)
Definition Header_Add (res : ResponseWriter) (key value : string) : ResponseWriter :=
  {| Header := Header res ++ [(key, value)]; Status := Status res; Body := Body res |}.

(** [res.WriteHeader(code)]; only the first status line counts. *)
Definition WriteHeader (res : ResponseWriter) (code : nat) : ResponseWriter :=
  {| Header := Header res;
     Status := match Status res with Some c => Some c | None => Some code end;
     Body := Body res |}.

(** [res.Write(data)]; the first write sends status 200 when none was sent. *)
Definition Write (res : ResponseWriter) (data : string) : ResponseWriter :=
  let res := WriteHeader res StatusOK in
  {| Header := Header res; Status := Status res; Body := Body res ++ [data] |}.

Definition newline : string := String "010"%char EmptyString.

(** [http.Error(rw, msg, code)]; the message goes out with [Fprintln]. *)
Definition Error (rw : ResponseWriter) (msg : string) (code : nat) : ResponseWriter :=
  let rw := Header_Add rw "Content-Type" "text/plain; charset=utf-8" in
  let rw := Header_Add rw "X-Content-Type-Options" "nosniff" in
  let rw := WriteHeader rw code in
  {| Header := Header rw; Status := Status rw; Body := Body rw ++ [msg +:+ newline] |}.

(** [http.NotFound(rw, req)]. *)
Definition NotFound (rw : ResponseWriter) : ResponseWriter :=
  Error rw "404 page not found" StatusNotFound.

End http.

(** The mutable locals captured by the closures of one call of [route]. *)
Record closure := mkClosure {
  idx : nat;
  allowOptionsMethods : list string;
}.

(** Everything a handler or a continuation can change: the request, the
    response and the captured locals of the [route] calls in progress,
    one [closure] per call, in call order. *)
Record world := mkWorld {
  req : Request;
  res : ResponseWriter;
  closures : list closure;
}.

Definition set_req (w : world) (r : Request) : world :=
  {| req := r; res := res w; closures := closures w |}.
Definition set_res (w : world) (r : ResponseWriter) : world :=
  {| req := req w; res := r; closures := closures w |}.
Definition set_closures (w : world) (cs : list closure) : world :=
  {| req := req w; res := res w; closures := cs |}.

(** The captured locals of call [fid] of [route]. *)
Definition closure_at (w : world) (fid : nat) : closure :=
  default (mkClosure 0 []) (closures w !! fid).
Definition set_closure (w : world) (fid : nat) (c : closure) : world :=
  set_closures w (<[fid := c]> (closures w)).

(** ** Handlers *)

(** [type Next func(err error)]. *)
Definition Next := option error -> world -> world.

(** The interface [HTTPHandler]: a value with the method
    [HTTPHandle(res, req, next)]; [res] and [req] are in the world. *)
Definition HTTPHandler := Next -> world -> world.

(** [HTTPHandleFunc]: the body of a handler function.  It returns, calls
    [next] (any number of times), changes the request or the response, or
    looks at them to decide how to go on. *)
Inductive HTTPHandleFunc :=
| Return
| CallNext (err : option error) (k : HTTPHandleFunc)
| Do (f : Request -> ResponseWriter -> Request * ResponseWriter) (k : HTTPHandleFunc)
| Observe (k : Request -> ResponseWriter -> HTTPHandleFunc).

(** [func (h HTTPHandleFunc) HTTPHandle(res, req, next) { h(res, req, next) }] *)
Fixpoint HTTPHandleFunc_HTTPHandle (h : HTTPHandleFunc) (next : Next) (w : world) : world :=
  match h with
  | Return => w
  | CallNext err k => HTTPHandleFunc_HTTPHandle k next (next err w)
  | Do f k =>
      let '(rq, rs) := f (req w) (res w) in
      HTTPHandleFunc_HTTPHandle k next (set_res (set_req w rq) rs)
  | Observe k => HTTPHandleFunc_HTTPHandle (k (req w) (res w)) next w
  end.

(** ** Layers and routers *)

(** Modelled from the spec: the struct [layer] of layer.go, which is not
    among the sources.  [newLayer(path, handler, isRoute)] fills the first
    three fields; [router.go] assigns [route]. *)
Record layer {Route : Type} := mkLayer {
  pattern : string;
  handler : HTTPHandler;
  isRoute : bool;
  route : option Route;
}.
Arguments layer : clear implicits.
Arguments mkLayer {Route} _ _ _ _.

Definition newLayer {Route : Type} (path : string) (h : HTTPHandler) (isRoute : bool)
  : layer Route :=
  mkLayer path h isRoute None.

Definition set_route {Route : Type} (l : layer Route) (rt : option Route) : layer Route :=
  mkLayer (pattern l) (handler l) (isRoute l) rt.

(** What [router.go] calls but does not define: the methods of [*Route]
    (route.go) and of [*layer] (layer.go), and [json.Marshal] on a
    [[]string].  [Route_method "GET" route handlers] is
    [route.GET(handlers...)], and so on for the other methods. *)
Class Collaborators := {
  Route : Type;
  newRoute : string -> Route;
  Route_method : string -> Route -> list HTTPHandler -> Route;
  Route_All : Route -> list HTTPHandler -> Route;
  handlesMethod : Route -> string -> bool;
  optionsMethods : Route -> list string;
  Route_HTTPHandle : Route -> HTTPHandler;
  layer_match : layer Route -> string -> Values * bool;
  registerParamsAsQuery : layer Route -> Request -> Values -> Request;
  json_Marshal : list string -> string + error;
}.

Section Router.

Context `{Collaborators}.

Record Router := mkRouter {
  stack : list (layer Route);
  routerPrefix : string;
}.

Definition NewRouter : Router := mkRouter [] "".

(** *** Dispatch *)

(** The locals of the loop that finds the next matching layer. *)
Record scan_state := mkScan {
  s_idx : nat;
  s_match : bool;
  s_l : option (layer Route);
  s_urlParams : Values;
  s_allow : list string;
}.

(** The loop [for ; match != true && idx < len(this.stack); { ... }];
    [rest] is [this.stack[idx:]], so that its head is [this.stack[idx]]. *)
Fixpoint scan (rest : list (layer Route)) (method path : string) (st : scan_state)
  : scan_state :=
  match rest with
  | [] => st
  | l :: rest' =>
      if s_match st then st else
      let idx := S (s_idx st) in
      let '(urlParams, matched) := layer_match l path in
      match matched, route l with
      | true, Some rt =>
          let hasMethod := handlesMethod rt method in
          let allow :=
            if negb hasMethod && String.eqb method "OPTIONS"
            then s_allow st ++ optionsMethods rt
            else s_allow st in
          let matched :=
            if negb hasMethod && negb (String.eqb method "HEAD")
            then false
            else matched in
          scan rest' method path (mkScan idx matched (Some l) urlParams allow)
      | _, _ =>
          scan rest' method path (mkScan idx matched (Some l) urlParams (s_allow st))
      end
  end.

(** The wrapper that [route] puts around [done] for an [OPTIONS]
    request; [fid] names the call of [route] whose
    [allowOptionsMethods] it reads. *)
Definition replyOptions (old : Next) (fid : nat) : Next := fun err w =>
  let allow := allowOptionsMethods (closure_at w fid) in
  if bool_decide (is_Some err) || (length allow =? 0)%nat then old err w
  else
    let w := set_res w (http.Header_Add (res w) "Allow" (strings.Join allow ",")) in
    match json_Marshal allow with
    | inr err => old (Some err) w
    | inl data => set_res w (http.Write (res w) data)
    end.

(** The body of the closure [next]; [self] is the closure itself, which
    it hands to the handler of the layer it selects. *)
Definition next_body (this : Router) (done self : Next) (fid : nat) : Next :=
  fun err w =>
  let c := closure_at w fid in
  if (length (stack this) <=? idx c)%nat then done err w else
  let path := strings.TrimPrefix (URL_Path (req w)) (routerPrefix this) in
  if String.eqb path "" then done err w else
  let st := scan (drop (idx c) (stack this)) (Method (req w)) path
              (mkScan (idx c) false None [] (allowOptionsMethods c)) in
  let w := set_closure w fid (mkClosure (s_idx st) (s_allow st)) in
  if negb (s_match st) || bool_decide (is_Some err) then done err w else
  match s_l st with
  | None => w
  | Some l =>
      let w := set_req w (registerParamsAsQuery l (req w) (s_urlParams st)) in
      handler l self w
  end.

(** The closure [next], by recursion on [n], a bound on the number of
    layers ahead of the cursor: a call that reaches a handler has moved
    the cursor past at least one layer, so the closure it hands on needs
    one less.  [route] starts with [len(this.stack)].  With that many the
    closure satisfies the equation of its Go definition ([next_unfold])
    and more would change nothing ([next_measure]). *)
Fixpoint next (this : Router) (done : Next) (fid : nat) (n : nat) : Next :=
  match n with
  | 0 => next_body this done (fun _ w => w) fid
  | S n' => next_body this done (next this done fid n') fid
  end.

(** [func (this *Router) route(req, res, done)]. *)
Definition Router_route (this : Router) (done : Next) (w : world) : world :=
  let fid := length (closures w) in
  let w := set_closures w (closures w ++ [mkClosure 0 []]) in
  let done :=
    if String.eqb (Method (req w)) "OPTIONS" then replyOptions done fid else done in
  next this done fid (length (stack this)) None w.

(** [func (this *Router) HTTPHandle(res, req, next)]. *)
Definition Router_HTTPHandle (this : Router) : HTTPHandler :=
  fun next w => Router_route this next w.

(** The callback that [ServeHTTP] passes as [done]. *)
Definition ServeHTTP_done : Next := fun err w =>
  match err with
  | Some _ => set_res w (http.Error (res w) "Something wrong" http.StatusInternalServerError)
  | None => set_res w (http.NotFound (res w))
  end.

(** [func (this Router) ServeHTTP(rw, req)]. *)
Definition ServeHTTP (this : Router) (rw : ResponseWriter) (rq : Request) : world :=
  Router_route this ServeHTTP_done (mkWorld rq rw []).

(** *** The dispatch rule in the words of the specification *)

(** A layer is a usable match when it matches the path and it is pure
    middleware (no Route), or its Route handles the request method, or the
    request method is [HEAD]. *)
Definition usable (method path : string) (l : layer Route) : bool :=
  snd (layer_match l path)
  && match route l with
     | None => true
     | Some rt => handlesMethod rt method || String.eqb method "HEAD"
     end.

(** The methods that an inspected layer adds to the allowed methods: those
    of its Route when the Route matches the path, does not handle the
    method, and the method is [OPTIONS]. *)
Definition optionsOf (method path : string) (l : layer Route) : list string :=
  match route l with
  | Some rt =>
      if snd (layer_match l path) && negb (handlesMethod rt method)
         && String.eqb method "OPTIONS"
      then optionsMethods rt
      else []
  | None => []
  end.

(** The layers not yet visited by call [fid] of [route]. *)
Definition ahead (this : Router) (fid : nat) (w : world) : list (layer Route) :=
  drop (idx (closure_at w fid)) (stack this).

(** The path that the layers of [this] are matched against. *)
Definition trimmed (this : Router) (w : world) : string :=
  strings.TrimPrefix (URL_Path (req w)) (routerPrefix this).

(** The earliest usable layer ahead of the cursor, with its distance from
    the cursor. *)
Definition selected (this : Router) (fid : nat) (w : world) : option (nat * layer Route) :=
  list_find (fun l => usable (Method (req w)) (trimmed this w) l = true) (ahead this fid w).

(** The layers that one scan inspects: up to and including the selected
    layer, or all that are left. *)
Definition inspected (this : Router) (fid : nat) (w : world) : list (layer Route) :=
  match selected this fid w with
  | Some (k, _) => take (S k) (ahead this fid w)
  | None => ahead this fid w
  end.

(** The world after one scan: the cursor is past the inspected layers and
    their methods are added to the allowed methods. *)
Definition scanned (this : Router) (fid : nat) (w : world) : world :=
  let c := closure_at w fid in
  set_closure w fid
    (mkClosure (idx c + length (inspected this fid w))
       (allowOptionsMethods c
        ++ flat_map (optionsOf (Method (req w)) (trimmed this w)) (inspected this fid w))).

(** The continuation that [next] with [n] layers to go hands on. *)
Definition resume (this : Router) (done : Next) (fid n : nat) : Next :=
  match n with
  | 0 => fun _ w => w
  | S n' => next this done fid n'
  end.

(** The continuations that a dispatch started with the terminal callback
    [final] builds: the callback, its wrapper for [OPTIONS], and the
    closure [next] of a router whose [done] is such a continuation (the
    [next] of its parent when the router is nested as a handler). *)
Inductive continuation (final : Next) : Next -> Prop :=
| continuation_final : continuation final final
| continuation_options old fid :
    continuation final old -> continuation final (replyOptions old fid)
| continuation_next this done fid n :
    continuation final done -> continuation final (next this done fid n).

(** Every cursor of [w] is still there in [w'], at the same layer or
    further on. *)
Definition forward (w w' : world) : Prop :=
  forall fid c, closures w !! fid = Some c ->
    exists c', closures w' !! fid = Some c' /\ idx c <= idx c'.

Definition forwardNext (k : Next) : Prop := forall err w, forward w (k err w).

(** A handler that moves cursors only through the continuation it is
    given. *)
Definition forwardHandler (h : HTTPHandler) : Prop :=
  forall next, forwardNext next -> forall w, forward w (h next w).

(** A property of worlds that stays true when cursors move forward. *)
Definition upward (P : world -> Prop) : Prop :=
  forall w w', forward w w' -> P w -> P w'.

(** A handler that does nothing with its continuation but call it: two
    continuations that agree wherever [P] holds take it to the same world
    from a world where [P] holds. *)
Definition respectful (h : HTTPHandler) : Prop :=
  forall (P : world -> Prop) (k1 k2 : Next),
    upward P -> forwardNext k1 ->
    (forall err w, P w -> k1 err w = k2 err w) ->
    forall w, P w -> h k1 w = h k2 w.

(** The handlers of a dispatch: they reach the cursors only through the
    continuation they are given. *)
Definition plain (h : HTTPHandler) : Prop := forwardHandler h /\ respectful h.

(** *** Registration *)

(** A value of the interface type [HTTPHandler] as [Use] sees it: the
    type assertion to [*Router] tells a router from the rest. *)
Inductive handlerValue :=
| RouterPtr (r : Router)
| FuncValue (h : HTTPHandleFunc)
| OtherValue (h : HTTPHandler).

Definition HTTPHandle (v : handlerValue) : HTTPHandler :=
  match v with
  | RouterPtr r => Router_HTTPHandle r
  | FuncValue h => HTTPHandleFunc_HTTPHandle h
  | OtherValue h => h
  end.

(** The handler after [r.routerPrefix = this.routerPrefix + path], which
    [Use] runs when the handler is a router.  The code assigns through
    the pointer [r]; the model gives the router with its new prefix.
    The two agree when [r] is a router other than the receiver, which is
    the case that the model of [Use] covers: mounting the receiver on
    itself would change the receiver's own prefix in the code. *)
Definition withRouterPrefix (this : Router) (path : string) (handler : handlerValue)
  : handlerValue :=
  match handler with
  | RouterPtr r => RouterPtr (mkRouter (stack r) (routerPrefix this +:+ path))
  | _ => handler
  end.

(** One turn of the loop of [Use]: the assignment to [r.routerPrefix]
    goes through the pointer, so the handler it leaves behind is returned
    next to the receiver. *)
Definition Use_step (path : string) (this : Router) (handler : handlerValue)
  : Router * handlerValue :=
  let handler := withRouterPrefix this path handler in
  let l := set_route (newLayer path (HTTPHandle handler) false) None in
  (mkRouter (stack this ++ [l]) (routerPrefix this), handler).

Fixpoint Use_loop (path : string) (this : Router) (handlers : list handlerValue)
  : Router * list handlerValue :=
  match handlers with
  | [] => (this, [])
  | handler :: handlers' =>
      let '(this, handler) := Use_step path this handler in
      let '(this, rest) := Use_loop path this handlers' in
      (this, handler :: rest)
  end.

(** [func (this *Router) Use(path, handlers...)]: the receiver after the
    call and the handlers as the call leaves them.  A mounted router
    stands in its layer as it is when [Use] returns: the layer of the
    code holds the pointer, so the model is that of routers mounted once,
    under a router other than themselves, and not changed afterwards; a
    router mounted a second time would get its new prefix in the layers
    that already hold it, too. *)
Definition Router_Use (this : Router) (path : string) (handlers : list handlerValue)
  : Router * list handlerValue :=
  let path := if String.eqb path "" then "/" else path in
  Use_loop path this handlers.

(** [func (this *Router) UseFunc(path, handlers...)]. *)
Definition Router_UseFunc (this : Router) (path : string) (handlers : list HTTPHandleFunc)
  : Router :=
  fold_left (fun this handler => fst (Router_Use this path [FuncValue handler]))
    handlers this.

(** The layer that [Route] appends for [route]. *)
Definition routeLayer (path : string) (route : Route) : layer Route :=
  set_route (newLayer path (Route_HTTPHandle route) true) (Some route).

(** [func (this *Router) Route(path) *Route]. *)
Definition Router_Route (this : Router) (path : string) : Router * Route :=
  let route := newRoute path in
  (mkRouter (stack this ++ [routeLayer path route]) (routerPrefix this), route).

(** [func (this *Router) addHandler(method, path, handlers...)].  The
    layer holds a pointer to the route, so it sees the handlers that are
    registered on the route after the layer was appended. *)
Definition Router_addHandler (this : Router) (method path : string)
  (handlers : list HTTPHandler) : Router :=
  let route := newRoute path in
  let route :=
    if String.eqb method "GET" then Route_method "GET" route handlers
    else if String.eqb method "POST" then Route_method "POST" route handlers
    else if String.eqb method "PUT" then Route_method "PUT" route handlers
    else if String.eqb method "DELETE" then Route_method "DELETE" route handlers
    else if String.eqb method "HEAD" then Route_method "HEAD" route handlers
    else route in
  mkRouter (stack this ++ [routeLayer path route]) (routerPrefix this).

Definition Router_GET (this : Router) (path : string) (handlers : list HTTPHandler) :=
  Router_addHandler this "GET" path handlers.
Definition Router_POST (this : Router) (path : string) (handlers : list HTTPHandler) :=
  Router_addHandler this "POST" path handlers.
Definition Router_PUT (this : Router) (path : string) (handlers : list HTTPHandler) :=
  Router_addHandler this "PUT" path handlers.
Definition Router_DELETE (this : Router) (path : string) (handlers : list HTTPHandler) :=
  Router_addHandler this "DELETE" path handlers.
Definition Router_HEAD (this : Router) (path : string) (handlers : list HTTPHandler) :=
  Router_addHandler this "HEAD" path handlers.

(** [func (this *Router) All(path, handlers...)]. *)
Definition Router_All (this : Router) (path : string) (handlers : list HTTPHandler) :=
  mkRouter (stack this ++ [routeLayer path (Route_All (newRoute path) handlers)])
    (routerPrefix this).

End Router.

(** ** The collaborators as the specification describes them *)

Module Modelled.

(** Modelled from the spec: the path segments that the pattern matcher of
    layer.go compares; the segment boundary is the delimiter [/] or the
    end of the string. *)
Fixpoint segments_from (s cur : string) : list string :=
  match s with
  | EmptyString => if String.eqb cur "" then [] else [cur]
  | String c s' =>
      if Ascii.eqb c "/"%char
      then (if String.eqb cur "" then segments_from s' ""
            else cur :: segments_from s' "")
      else segments_from s' (cur +:+ String c EmptyString)
  end.

Definition segments (s : string) : list string := segments_from s "".

(** Parameter names can repeat: each maps to the sequence of its values. *)
Fixpoint addValue (name value : string) (vs : Values) : Values :=
  match vs with
  | [] => [(name, [value])]
  | (k, old) :: vs' =>
      if String.eqb k name then (k, old ++ [value]) :: vs'
      else (k, old) :: addValue name value vs'
  end.

(** Modelled from the spec: segment-wise comparison of a pattern with a
    path.  A segment that starts with the parameter marker [:] captures
    the path segment under its name.  In prefix mode the path may go on
    after the pattern is used up. *)
Fixpoint matchSegments (prefixMode : bool) (pat path : list string) (acc : Values)
  : option Values :=
  match pat, path with
  | [], [] => Some acc
  | [], _ :: _ => if prefixMode then Some acc else None
  | _ :: _, [] => None
  | p :: pat', s :: path' =>
      match p with
      | String ":"%char name => matchSegments prefixMode pat' path' (addValue name s acc)
      | _ => if String.eqb p s then matchSegments prefixMode pat' path' acc else None
      end
  end.

(** Modelled from the spec: [layer.match] of layer.go, which is not among
    the sources.  A layer made by [Use] matches every path that begins
    with its pattern, segment by segment; the layer of a Route matches the
    paths that have exactly the segments of its pattern.  No parameter is
    returned when the match fails. *)
Definition layer_match {Route : Type} (l : layer Route) (path : string) : Values * bool :=
  match matchSegments (negb (isRoute l)) (segments (pattern l)) (segments path) [] with
  | Some params => (params, true)
  | None => ([], false)
  end.

(** Modelled from the spec: [layer.registerParamsAsQuery] of layer.go.
    The captured parameters are added to the query parameters; values
    under a shared name are concatenated. *)
Definition registerParamsAsQuery {Route : Type} (l : layer Route) (rq : Request)
  (urlParams : Values) : Request :=
  mkRequest (Method rq) (URL_Path rq)
    (fold_left (fun q kv => fold_left (fun q v => addValue (fst kv) v q) (snd kv) q)
       urlParams (URL_Query rq)).

(** Modelled from the spec: the struct [Route] of route.go, which is not
    among the sources.  [methodHandlers] keeps the registrations in the
    order they were made. *)
Record Route := mkRoute {
  path : string;
  methodHandlers : list (string * HTTPHandler);
}.

Definition newRoute (path : string) : Route := mkRoute path [].

(** The chain of one method. *)
Definition chain (rt : Route) (method : string) : list HTTPHandler :=
  map snd (filter (fun mh => bool_decide (fst mh = method)) (methodHandlers rt)).

(** Modelled from the spec: [registerMethod]; registrations for one
    method accumulate. *)
Definition Route_method (method : string) (rt : Route) (handlers : list HTTPHandler) : Route :=
  mkRoute (path rt) (methodHandlers rt ++ map (fun h => (method, h)) handlers).

Definition recognized : list string := ["GET"; "POST"; "PUT"; "DELETE"; "HEAD"].

(** Modelled from the spec: [registerAll] registers for every recognized
    method. *)
Definition Route_All (rt : Route) (handlers : list HTTPHandler) : Route :=
  fold_left (fun rt method => Route_method method rt handlers) recognized rt.

(** Modelled from the spec: [handlesMethod] is true iff the method has a
    non-empty chain, or the method is [HEAD] and [GET] has one. *)
Definition handlesMethod (rt : Route) (method : string) : bool :=
  negb (length (chain rt method) =? 0)%nat
  || (String.eqb method "HEAD" && negb (length (chain rt "GET") =? 0)%nat).

(** Modelled from the spec: [optionsMethods] lists every method with a
    non-empty chain, by first registration. *)
Fixpoint methodsOf (mhs : list (string * HTTPHandler)) (seen : list string) : list string :=
  match mhs with
  | [] => []
  | (m, _) :: mhs' =>
      if bool_decide (m ∈ seen) then methodsOf mhs' seen
      else m :: methodsOf mhs' (m :: seen)
  end.

Definition optionsMethods (rt : Route) : list string := methodsOf (methodHandlers rt) [].

(** Modelled from the spec: the route runs the chain of the request
    method; each handler receives a continuation that goes on with the
    rest of the chain, and the last one the continuation of the router. *)
Fixpoint runChain (hs : list HTTPHandler) (next : Next) : Next :=
  match hs with
  | [] => next
  | h :: hs' => fun err w =>
      match err with
      | Some _ => next err w
      | None => h (runChain hs' next) w
      end
  end.

Definition Route_HTTPHandle (rt : Route) : HTTPHandler :=
  fun next w => runChain (chain rt (Method (req w))) next None w.

(** [json.Marshal] on a slice of method names: a JSON array of strings. *)
Definition quote : string := String "034"%char EmptyString.

Definition json_Marshal (v : list string) : string + error :=
  inl ("[" +:+ strings.Join (map (fun s => quote +:+ s +:+ quote) v) "," +:+ "]").

(** An encoder that gives up, to exercise the error path of the
    automatic OPTIONS reply. *)
Definition json_Marshal_failing (v : list string) : string + error :=
  inr "json: unsupported value".

Definition collaborators_with (marshal : list string -> string + error) : Collaborators :=
  Build_Collaborators Route newRoute Route_method Route_All handlesMethod optionsMethods
    Route_HTTPHandle layer_match registerParamsAsQuery marshal.

Definition collaborators : Collaborators := collaborators_with json_Marshal.

Definition failing : Collaborators := collaborators_with json_Marshal_failing.

End Modelled.

(** ** Example routers *)

Module Examples.

#[local] Existing Instance Modelled.collaborators.

Definition blank : ResponseWriter := mkResponse [] None [].

(** A handler that writes [s] and returns without calling [next]. *)
Definition say (s : string) : HTTPHandleFunc :=
  Do (fun rq rs => (rq, http.Write rs s)) Return.

(** A handler that writes [s] and calls [next(nil)]. *)
Definition sayNext (s : string) : HTTPHandleFunc :=
  Do (fun rq rs => (rq, http.Write rs s)) (CallNext None Return).

(** A handler that calls [next(err)]. *)
Definition failWith (err : error) : HTTPHandleFunc := CallNext (Some err) Return.

(** A continuation that leaves a trace when it is invoked. *)
Definition traced (s : string) : Next := fun _ w => set_res w (http.Write (res w) s).

(** [NewRouter().UseFunc("/users", say "users")]. *)
Definition usersFilter : Router := Router_UseFunc NewRouter "/users" [say "users"].

(** [usersFilter] after [NewRouter().Use("/api", usersFilter)]. *)
Definition usersFilterMounted : Router :=
  match snd (Router_Use NewRouter "/api" [RouterPtr usersFilter]) with
  | [RouterPtr r] => r
  | _ => NewRouter
  end.

(** [NewRouter().GET("/users", say "list")]. *)
Definition usersAPI : Router :=
  Router_GET NewRouter "/users" [HTTPHandleFunc_HTTPHandle (say "list")].

(** The route of the only layer of [usersAPI]. *)
Definition usersRoute : Modelled.Route :=
  Modelled.Route_method "GET" (Modelled.newRoute "/users")
    [HTTPHandleFunc_HTTPHandle (say "list")].

(** [usersAPI] after it is mounted at [/api]. *)
Definition usersAPIMounted : Router := mkRouter (stack usersAPI) "/api".

(** [NewRouter().Use("/api", usersAPI).UseFunc("/", say "after")]. *)
Definition site : Router :=
  Router_UseFunc (fst (Router_Use NewRouter "/api" [RouterPtr usersAPI])) "/" [say "after"].

(** [NewRouter().UseFunc("/", failWith "boom").UseFunc("/", say "late")]. *)
Definition broken : Router :=
  Router_UseFunc (Router_UseFunc NewRouter "/" [failWith "boom"]) "/" [say "late"].

(** [NewRouter().POST("/x", say "L1").GET("/x", say "L2").GET("/x", say "L3")]. *)
Definition threeRoutes : Router :=
  Router_GET
    (Router_GET
       (Router_POST NewRouter "/x" [HTTPHandleFunc_HTTPHandle (say "L1")])
       "/x" [HTTPHandleFunc_HTTPHandle (say "L2")])
    "/x" [HTTPHandleFunc_HTTPHandle (say "L3")].

(** The second layer of [threeRoutes]. *)
Definition secondRoute : layer Modelled.Route :=
  routeLayer "/x"
    (Modelled.Route_method "GET" (Modelled.newRoute "/x")
       [HTTPHandleFunc_HTTPHandle (say "L2")]).

(** [NewRouter().GET("/x", say "get").POST("/x", say "post")]. *)
Definition getAndPost : Router :=
  Router_POST
    (Router_GET NewRouter "/x" [HTTPHandleFunc_HTTPHandle (say "get")])
    "/x" [HTTPHandleFunc_HTTPHandle (say "post")].

(** [NewRouter().POST("/x", say "post")] and its only layer. *)
Definition postLayer : layer Modelled.Route :=
  routeLayer "/x"
    (Modelled.Route_method "POST" (Modelled.newRoute "/x")
       [HTTPHandleFunc_HTTPHandle (say "post")]).

Definition postOnly : Router :=
  Router_POST NewRouter "/x" [HTTPHandleFunc_HTTPHandle (say "post")].

(** A router with a filter at [/], mounted at [/api]. *)
Definition rootFilterMounted : Router :=
  mkRouter (stack (Router_UseFunc NewRouter "/" [say "root"])) "/api".

(** The body that [json.Marshal] makes of a list of methods. *)
Definition encoded (methods : list string) : string :=
  match Modelled.json_Marshal methods with
  | inl data => data
  | inr err => err
  end.

(** The world in which [ServeHTTP] starts. *)
Definition start (method path : string) : world :=
  mkWorld (mkRequest method path []) blank [].

(** The world in which the first call of [next] of a root dispatch runs. *)
Definition entered (method path : string) : world :=
  mkWorld (mkRequest method path []) blank [mkClosure 0 []].

End Examples.

(** ** The function shorthands *)

Section Shorthands.

Context `{Collaborators}.

(** [func (this *Router) matchLayer(l, path)]. *)
Definition Router_matchLayer (this : Router) (l : layer Route) (path : string)
  : Values * bool :=
  layer_match l path.

(** [func (this *Router) GETFunc(path, handlers...)]: the handlers are
    passed to [GET] one by one. *)
Definition Router_GETFunc (this : Router) (path : string) (handlers : list HTTPHandleFunc)
  : Router :=
  fold_left (fun this handler => Router_GET this path [HTTPHandleFunc_HTTPHandle handler])
    handlers this.

(** [func (this *Router) POSTFunc(path, handlers...)]. *)
Definition Router_POSTFunc (this : Router) (path : string) (handlers : list HTTPHandleFunc)
  : Router :=
  fold_left (fun this handler => Router_POST this path [HTTPHandleFunc_HTTPHandle handler])
    handlers this.

(** [func (this *Router) PUTFunc(path, handlers...)]. *)
Definition Router_PUTFunc (this : Router) (path : string) (handlers : list HTTPHandleFunc)
  : Router :=
  fold_left (fun this handler => Router_PUT this path [HTTPHandleFunc_HTTPHandle handler])
    handlers this.

(** [func (this *Router) DELETEFunc(path, handlers...)]. *)
Definition Router_DELETEFunc (this : Router) (path : string) (handlers : list HTTPHandleFunc)
  : Router :=
  fold_left (fun this handler => Router_DELETE this path [HTTPHandleFunc_HTTPHandle handler])
    handlers this.

(** [func (this *Router) HEADFunc(path, handlers...)]. *)
Definition Router_HEADFunc (this : Router) (path : string) (handlers : list HTTPHandleFunc)
  : Router :=
  fold_left (fun this handler => Router_HEAD this path [HTTPHandleFunc_HTTPHandle handler])
    handlers this.

(** The route layer that a method shorthand appends for [handlers]. *)
Definition methodLayer (method path : string) (handlers : list HTTPHandler) : layer Route :=
  routeLayer path (Route_method method (newRoute path) handlers).

(** [this'] is [this] with [k] more layers behind the ones it had, under
    the same prefix. *)
Definition extends (this this' : Router) (k : nat) : Prop :=
  exists more,
    stack this' = stack this ++ more
    /\ length more = k
    /\ routerPrefix this' = routerPrefix this.

(** A handler that does nothing but call [next(nil)]. *)
Definition passes (h : HTTPHandler) : Prop := forall k w, h k w = k None w.

End Shorthands.

Module MoreExamples.

#[local] Existing Instance Modelled.collaborators.

(** A filter that only passes on. *)
Definition pass : HTTPHandleFunc := CallNext None Return.

(** [NewRouter().UseFunc("/", pass, pass).UseFunc("/x", pass)]. *)
Definition filters : Router :=
  Router_UseFunc (Router_UseFunc NewRouter "/" [pass; pass]) "/x" [pass].


End MoreExamples.

(** * Properties *)

Section RouterFacts.

Context `{Collaborators}.

Lemma stripPrefix_None_TrimPrefix s prefix :
  strings.HasPrefix s prefix = false -> strings.TrimPrefix s prefix = s.
Proof.
  unfold strings.HasPrefix, strings.TrimPrefix.
  destruct (strings.stripPrefix prefix s); [discriminate | reflexivity].
Qed.

Lemma eqb_HEAD_not_OPTIONS method :
  String.eqb method "HEAD" = true -> String.eqb method "OPTIONS" = false.
Proof. intros Hm. apply String.eqb_eq in Hm. subst. reflexivity. Qed.

Lemma scan_matched rest method path st :
  s_match st = true -> scan rest method path st = st.
Proof. intros Hm. destruct rest; simpl; [reflexivity | rewrite Hm; reflexivity]. Qed.

Lemma scan_spec rest method path : forall st,
  s_match st = false ->
  match list_find (fun l => usable method path l = true) rest with
  | Some (k, l) =>
      scan rest method path st
      = mkScan (s_idx st + S k) true (Some l) (fst (layer_match l path))
          (s_allow st ++ flat_map (optionsOf method path) (take (S k) rest))
  | None =>
      s_idx (scan rest method path st) = s_idx st + length rest
      /\ s_match (scan rest method path st) = false
      /\ s_allow (scan rest method path st)
         = s_allow st ++ flat_map (optionsOf method path) rest
  end.
Proof.
  induction rest as [|l rest IH]; intros st Hst.
  - simpl. rewrite Nat.add_0_r, app_nil_r. auto.
  - cbn [scan list_find]. rewrite Hst.
    destruct (layer_match l path) as [params m] eqn:Hlm.
    destruct (route l) as [rt|] eqn:Hrt;
      [destruct (handlesMethod rt method) eqn:Hh;
       [|destruct (String.eqb method "HEAD") eqn:Hhead]|];
      destruct m;
      (assert (Hu : usable method path l = _)
         by (unfold usable; rewrite Hlm, Hrt, ?Hh, ?Hhead; reflexivity));
      (assert (Ho : optionsOf method path l = _)
         by (unfold optionsOf; rewrite Hlm, Hrt, ?Hh; cbn [snd negb andb];
             rewrite ?(eqb_HEAD_not_OPTIONS _ Hhead); reflexivity));
      cbn [negb andb orb snd] in *; rewrite ?(eqb_HEAD_not_OPTIONS _ Hhead);
      rewrite Hu;
      first [rewrite decide_True by reflexivity | rewrite decide_False by done].
    all: try (rewrite scan_matched by reflexivity; rewrite Hlm; cbn [take flat_map fst];
              rewrite Ho, take_0; cbn [flat_map app];
              rewrite ?app_nil_r, Nat.add_1_r; reflexivity).
    all: match goal with
         | |- context [scan _ _ _ ?s] => specialize (IH s eq_refl)
         end;
         destruct (list_find _ rest) as [[k l']|];
         cbn [fmap option_fmap option_map prod_map fst snd id];
         cbn [take flat_map length]; rewrite Ho;
         [rewrite IH; cbn [s_idx s_allow]; f_equal
         |destruct IH as (Hi & Hm & Ha); cbn [s_idx s_allow] in *;
          rewrite Hi, Hm, Ha; split; [|split; [reflexivity|]]];
         first [lia
               |try (destruct (String.eqb method "OPTIONS")); cbn [app];
                rewrite <- ?app_assoc; reflexivity].
Qed.

Lemma next_unroll this done fid n :
  next this done fid n = next_body this done (resume this done fid n) fid.
Proof. destruct n; reflexivity. Qed.

Lemma next_exhausted this done fid n err w :
  length (stack this) <= idx (closure_at w fid) ->
  next this done fid n err w = done err w.
Proof.
  intros Hlen. rewrite next_unroll. unfold next_body.
  apply Nat.leb_le in Hlen. rewrite Hlen. reflexivity.
Qed.

Lemma next_empty_path this done fid n err w :
  trimmed this w = "" ->
  next this done fid n err w = done err w.
Proof.
  intros Hpath. rewrite next_unroll. unfold next_body.
  destruct (length (stack this) <=? idx (closure_at w fid))%nat; [reflexivity|].
  fold (trimmed this w). rewrite Hpath. reflexivity.
Qed.

Lemma inspected_length this fid w :
  length (inspected this fid w)
  = match selected this fid w with
    | Some (k, _) => S k
    | None => length (ahead this fid w)
    end.
Proof.
  unfold inspected. destruct (selected this fid w) as [[k l]|] eqn:Hsel; [|reflexivity].
  apply list_find_Some in Hsel as (Hl & _).
  apply lookup_lt_Some in Hl. rewrite length_take. lia.
Qed.

Lemma next_scan this done fid n err w :
  idx (closure_at w fid) < length (stack this) ->
  trimmed this w <> "" ->
  next this done fid n err w
  = match err, selected this fid w with
    | None, Some (_, l) =>
        handler l (resume this done fid n)
          (set_req (scanned this fid w)
             (registerParamsAsQuery l (req w) (fst (layer_match l (trimmed this w)))))
    | _, _ => done err (scanned this fid w)
    end.
Proof.
  intros Hlt Hpath. rewrite next_unroll. unfold next_body.
  apply Nat.leb_gt in Hlt. rewrite Hlt.
  fold (trimmed this w). apply String.eqb_neq in Hpath. rewrite Hpath.
  fold (ahead this fid w).
  pose proof (scan_spec (ahead this fid w) (Method (req w)) (trimmed this w)
                (mkScan (idx (closure_at w fid)) false None []
                   (allowOptionsMethods (closure_at w fid))) eq_refl) as Hscan.
  unfold scanned. rewrite inspected_length. unfold inspected.
  fold (selected this fid w) in Hscan.
  destruct (selected this fid w) as [[k l]|].
  - rewrite Hscan. cbn [s_idx s_match s_allow s_l s_urlParams negb orb].
    destruct err; reflexivity.
  - destruct Hscan as (Hi & Hm & Ha). cbn [s_idx s_allow] in Hi, Ha.
    rewrite Hi, Hm, Ha. cbn [negb orb]. destruct err; reflexivity.
Qed.


(** While [n] is at least the number of layers ahead of the cursor, the
    closure satisfies the equation of its Go definition. *)
Lemma next_unfold this done fid n err w :
  length (stack this) <= idx (closure_at w fid) + n ->
  next this done fid n err w
  = next_body this done (next this done fid (n - 1)) fid err w.
Proof.
  intros Hn. destruct n as [|n].
  - rewrite next_exhausted by lia. unfold next_body.
    replace (length (stack this) <=? idx (closure_at w fid))%nat with true
      by (symmetry; apply Nat.leb_le; lia).
    reflexivity.
  - cbn [next]. replace (S n - 1) with n by lia. reflexivity.
Qed.

(** With an error, [next] hands the error to [done]; the world it passes
    differs from the one it received in the cursor only. *)
Lemma next_error this done fid n e w :
  next this done fid n (Some e) w
  = done (Some e)
      (if (length (stack this) <=? idx (closure_at w fid))%nat
          || String.eqb (trimmed this w) ""
       then w else scanned this fid w).
Proof.
  destruct (length (stack this) <=? idx (closure_at w fid))%nat eqn:Hlen.
  - apply Nat.leb_le in Hlen. rewrite next_exhausted by assumption. reflexivity.
  - destruct (String.eqb (trimmed this w) "") eqn:Hpath; cbn [orb].
    + apply String.eqb_eq in Hpath. rewrite next_empty_path by assumption. reflexivity.
    + apply Nat.leb_gt in Hlen. apply String.eqb_neq in Hpath.
      rewrite next_scan by assumption. reflexivity.
Qed.

(** C10.  When stripping the router's prefix from the request path leaves
    the empty string, every call of [next] hands the current error to
    [done] in the unchanged world, cursor included, so no layer is
    inspected; [route] then does what it does for a router that has no
    layers at all, whatever the patterns of its layers are. *)
Theorem next_at_mount_prefix this done w :
  strings.TrimPrefix (URL_Path (req w)) (routerPrefix this) = "" ->
  (forall fid n err, next this done fid n err w = done err w)
  /\ Router_route this done w = Router_route (mkRouter [] (routerPrefix this)) done w.
Proof.
  intros Hpath. split.
  - intros fid n err. apply next_empty_path. exact Hpath.
  - unfold Router_route. rewrite next_empty_path by exact Hpath.
    cbn [stack length next]. unfold next_body. reflexivity.
Qed.

(** The continuation that [route] hands to the handler of the layer it
    selects is one of the dispatch. *)
Lemma continuation_route final this done method fid n :
  continuation final done ->
  continuation final
    (next this (if String.eqb method "OPTIONS" then replyOptions done fid else done) fid n).
Proof.
  intros Hdone. apply continuation_next.
  destruct (String.eqb method "OPTIONS"); [apply continuation_options|]; exact Hdone.
Qed.


(** C9.  Called with a non-nil error, [next] calls [done] with that error
    in a world whose request (and response) is the one it received:
    [registerParamsAsQuery] is not run, also when the scan has found a
    layer that matches. *)
Theorem error_leaves_request this done fid n e w :
  let w' :=
    if (length (stack this) <=? idx (closure_at w fid))%nat
       || String.eqb (trimmed this w) ""
    then w else scanned this fid w in
  next this done fid n (Some e) w = done (Some e) w'
  /\ req w' = req w /\ res w' = res w.
Proof.
  cbn zeta. split; [apply next_error|].
  destruct ((length (stack this) <=? idx (closure_at w fid))%nat
            || String.eqb (trimmed this w) ""); split; reflexivity.
Qed.

(** C8.  When the automatic OPTIONS reply is due (no error, methods
    accumulated) and [json.Marshal] fails, the original callback is
    called with the encoding error and nothing has been written to the
    body. *)
Theorem options_encoding_failure old fid w e :
  let allow := allowOptionsMethods (closure_at w fid) in
  let w' := set_res w (http.Header_Add (res w) "Allow" (strings.Join allow ",")) in
  allow <> [] ->
  json_Marshal allow = inr e ->
  replyOptions old fid None w = old (Some e) w' /\ Body (res w') = Body (res w).
Proof.
  intros allow w' Hallow Hjson. split; [|reflexivity].
  unfold replyOptions. fold allow. rewrite Hjson.
  rewrite bool_decide_eq_false_2 by (intros [? ?]; discriminate).
  destruct allow; [contradiction|]. reflexivity.
Qed.

Lemma forward_refl w : forward w w.
Proof. intros fid c Hc. exists c. split; [assumption|lia]. Qed.

Lemma forward_trans w1 w2 w3 : forward w1 w2 -> forward w2 w3 -> forward w1 w3.
Proof.
  intros H12 H23 fid c Hc.
  destruct (H12 fid c Hc) as (c2 & Hc2 & Hle2).
  destruct (H23 fid c2 Hc2) as (c3 & Hc3 & Hle3).
  exists c3. split; [assumption|lia].
Qed.

Lemma forward_same_closures w w' : closures w' = closures w -> forward w w'.
Proof. intros Heq fid c Hc. exists c. rewrite Heq. split; [assumption|lia]. Qed.

Lemma forward_set_closure w fid c' :
  idx (closure_at w fid) <= idx c' -> forward w (set_closure w fid c').
Proof.
  intros Hle fid' c Hc. cbn [set_closure set_closures closures].
  destruct (decide (fid = fid')) as [->|Hne].
  - exists c'. split.
    + apply list_lookup_insert_eq. eapply lookup_lt_Some; eassumption.
    + unfold closure_at in Hle. rewrite Hc in Hle. exact Hle.
  - exists c. rewrite list_lookup_insert_ne by assumption. split; [assumption|lia].
Qed.

Lemma forward_scanned this fid w : forward w (scanned this fid w).
Proof. apply forward_set_closure. cbn [idx]. lia. Qed.

Lemma forward_push w c : forward w (set_closures w (closures w ++ [c])).
Proof.
  intros fid c0 Hc. exists c0. cbn [set_closures closures].
  rewrite lookup_app_l by (eapply lookup_lt_Some; eassumption).
  split; [assumption|lia].
Qed.

Lemma forwardHandler_func h : forwardHandler (HTTPHandleFunc_HTTPHandle h).
Proof.
  intros next Hnext. induction h as [|err k IH|f k IH|k IH]; intros w; cbn.
  - apply forward_refl.
  - eapply forward_trans; [apply Hnext|apply IH].
  - destruct (f (req w) (res w)) as [rq rs].
    eapply forward_trans; [|apply IH]. apply forward_same_closures. reflexivity.
  - apply IH.
Qed.

Lemma forwardNext_replyOptions old fid :
  forwardNext old -> forwardNext (replyOptions old fid).
Proof.
  intros Hold err w. unfold replyOptions.
  destruct (bool_decide (is_Some err) || _); [apply Hold|].
  destruct (json_Marshal _).
  - apply forward_same_closures. reflexivity.
  - eapply forward_trans; [|apply Hold]. apply forward_same_closures. reflexivity.
Qed.

Lemma forwardNext_ServeHTTP_done : forwardNext ServeHTTP_done.
Proof. intros [e|] w; apply forward_same_closures; reflexivity. Qed.

Lemma selected_in_stack this fid w k l :
  selected this fid w = Some (k, l) ->
  stack this !! (idx (closure_at w fid) + k) = Some l
  /\ usable (Method (req w)) (trimmed this w) l = true
  /\ forall j l', j < k -> stack this !! (idx (closure_at w fid) + j) = Some l' ->
       usable (Method (req w)) (trimmed this w) l' = false.
Proof.
  intros Hsel. apply list_find_Some in Hsel as (Hl & Hu & Hbefore).
  unfold ahead in *. rewrite lookup_drop in Hl. repeat split; try assumption.
  intros j l' Hj Hl'. specialize (Hbefore j l').
  rewrite lookup_drop in Hbefore. specialize (Hbefore Hl' Hj).
  destruct (usable _ _ l'); [contradiction|reflexivity].
Qed.

Lemma selected_none this fid w :
  selected this fid w = None ->
  forall j l', stack this !! (idx (closure_at w fid) + j) = Some l' ->
    usable (Method (req w)) (trimmed this w) l' = false.
Proof.
  intros Hsel j l' Hl'. apply list_find_None in Hsel.
  rewrite Forall_lookup in Hsel. specialize (Hsel j l').
  unfold ahead in Hsel. rewrite lookup_drop in Hsel. specialize (Hsel Hl').
  destruct (usable _ _ l'); [contradiction|reflexivity].
Qed.

Lemma forwardNext_next this done fid n :
  Forall (fun l => forwardHandler (handler l)) (stack this) ->
  forwardNext done ->
  forwardNext (next this done fid n).
Proof.
  intros Hstack Hdone. induction n as [|n IH]; intros err w.
  all: destruct (le_lt_dec (length (stack this)) (idx (closure_at w fid))) as [Hlen|Hlen];
    [rewrite next_exhausted by assumption; apply Hdone|].
  all: destruct (decide (trimmed this w = "")) as [Hpath|Hpath];
    [rewrite next_empty_path by assumption; apply Hdone|].
  all: rewrite next_scan by assumption.
  all: pose proof (forward_scanned this fid w) as Hscan.
  all: destruct err as [e|]; [eapply forward_trans; [exact Hscan|apply Hdone]|].
  all: destruct (selected this fid w) as [[k l]|] eqn:Hsel;
    [|eapply forward_trans; [exact Hscan|apply Hdone]].
  all: apply selected_in_stack in Hsel as (Hl & _).
  all: rewrite Forall_lookup in Hstack; specialize (Hstack _ _ Hl).
  all: refine (forward_trans _ _ _ Hscan (forward_trans _ _ _ _ (Hstack _ _ _)));
    [apply forward_same_closures; reflexivity|].
  - intros ? w'. apply forward_refl.
  - exact IH.
Qed.

Lemma forwardHandler_Router this :
  Forall (fun l => forwardHandler (handler l)) (stack this) ->
  forwardHandler (Router_HTTPHandle this).
Proof.
  intros Hstack k Hk w. unfold Router_HTTPHandle, Router_route.
  eapply forward_trans; [apply forward_push|].
  apply forwardNext_next; [assumption|].
  destruct (String.eqb _ _); [apply forwardNext_replyOptions|]; assumption.
Qed.

Lemma closure_at_lookup w fid c : closures w !! fid = Some c -> closure_at w fid = c.
Proof. intros Hc. unfold closure_at. rewrite Hc. reflexivity. Qed.

Lemma closure_at_set_closure w fid c c' :
  closures w !! fid = Some c -> closure_at (set_closure w fid c') fid = c'.
Proof.
  intros Hc. unfold closure_at, set_closure. cbn [set_closures closures].
  rewrite list_lookup_insert_eq by (eapply lookup_lt_Some; eassumption). reflexivity.
Qed.

Lemma resume_pred this done fid n :
  0 < n -> resume this done fid n = next this done fid (n - 1).
Proof. destruct n; [lia|]. intros _. cbn [resume]. f_equal. lia. Qed.

(** C4.  With handlers that move cursors only through their continuation,
    no call of [next] moves a cursor backward.  A call of [next] without
    error with the cursor at [idx c] inspects the layers from [idx c] on,
    in registration order; it runs the handler of the earliest layer there
    that matches the path and has no Route, or a Route that handles the
    method, or the method is [HEAD]; every layer before it is not such a
    match and the cursor ends behind the selected layer, so that none of
    them is inspected again.  Without such a layer the cursor ends at the
    end of the stack. *)
Theorem dispatch_in_registration_order this done fid n :
  Forall (fun l => forwardHandler (handler l)) (stack this) ->
  forwardNext done ->
  forwardNext (next this done fid n)
  /\ forall w c,
       closures w !! fid = Some c ->
       idx c < length (stack this) ->
       trimmed this w <> "" ->
       length (stack this) <= idx c + n ->
       let method := Method (req w) in
       let path := trimmed this w in
       match selected this fid w with
       | Some (k, l) =>
           stack this !! (idx c + k) = Some l
           /\ usable method path l = true
           /\ (forall j l', j < k -> stack this !! (idx c + j) = Some l' ->
                 usable method path l' = false)
           /\ idx (closure_at (scanned this fid w) fid) = idx c + S k
           /\ length (stack this) <= idx c + S k + (n - 1)
           /\ next this done fid n None w
              = handler l (next this done fid (n - 1))
                  (set_req (scanned this fid w)
                     (registerParamsAsQuery l (req w) (fst (layer_match l path))))
       | None =>
           (forall j l', stack this !! (idx c + j) = Some l' ->
              usable method path l' = false)
           /\ idx (closure_at (scanned this fid w) fid) = length (stack this)
           /\ next this done fid n None w = done None (scanned this fid w)
       end.
Proof.
  intros Hstack Hdone. split; [apply forwardNext_next; assumption|].
  intros w c Hc Hlt Hpath Hn method path.
  pose proof (closure_at_lookup _ _ _ Hc) as Hat.
  assert (Hnext := next_scan this done fid n None w).
  rewrite Hat in Hnext. specialize (Hnext Hlt Hpath).
  assert (Hidx : idx (closure_at (scanned this fid w) fid)
                 = idx c + length (inspected this fid w)).
  { unfold scanned. rewrite (closure_at_set_closure _ _ _ _ Hc), Hat. reflexivity. }
  rewrite inspected_length in Hidx.
  destruct (selected this fid w) as [[k l]|] eqn:Hsel.
  - apply selected_in_stack in Hsel as (Hl & Hu & Hbefore). rewrite Hat in Hl, Hbefore.
    repeat split; try assumption; [lia|].
    rewrite Hnext, resume_pred by lia. reflexivity.
  - pose proof (selected_none _ _ _ Hsel) as Hnone. rewrite Hat in Hnone.
    repeat split; try assumption.
    rewrite Hidx. unfold ahead. rewrite Hat, length_drop. lia.
Qed.

Lemma optionsOf_HEAD path l : optionsOf "HEAD" path l = [].
Proof.
  unfold optionsOf. destruct (route l); [|reflexivity].
  cbn. rewrite andb_false_r. reflexivity.
Qed.

Lemma usable_HEAD path l : usable "HEAD" path l = snd (layer_match l path).
Proof.
  unfold usable. destruct (route l); cbn; rewrite ?orb_true_r, andb_true_r; reflexivity.
Qed.

Lemma flat_map_nil {A B} (f : A -> list B) (l : list A) :
  (forall x, f x = []) -> flat_map f l = [].
Proof. intros Hf. induction l as [|x l IH]; cbn; [|rewrite Hf, IH]; reflexivity. Qed.

(** C6.  For a [HEAD] request the earliest layer ahead of the cursor
    that matches the path is dispatched, with or without a Route and
    whatever [handlesMethod] answers. *)
Theorem head_matches_any_route this done fid n w c k l :
  Method (req w) = "HEAD" ->
  closures w !! fid = Some c ->
  trimmed this w <> "" ->
  length (stack this) <= idx c + n ->
  list_find (fun l => snd (layer_match l (trimmed this w)) = true)
    (drop (idx c) (stack this)) = Some (k, l) ->
  next this done fid n None w
  = handler l (next this done fid (n - 1))
      (set_req (set_closure w fid (mkClosure (idx c + S k) (allowOptionsMethods c)))
         (registerParamsAsQuery l (req w) (fst (layer_match l (trimmed this w))))).
Proof.
  intros Hhead Hc Hpath Hn Hfind.
  pose proof (closure_at_lookup _ _ _ Hc) as Hat.
  assert (Hsel : selected this fid w = Some (k, l)).
  { unfold selected, ahead. rewrite Hat, Hhead.
    apply list_find_Some in Hfind as (Hl & Hm & Hbefore).
    apply list_find_Some. rewrite usable_HEAD. repeat split; try assumption.
    intros j y Hy Hj. rewrite usable_HEAD. eauto. }
  assert (Hlt : idx c < length (stack this)).
  { apply list_find_Some in Hfind as (Hl & _).
    apply lookup_lt_Some in Hl. rewrite length_drop in Hl. lia. }
  rewrite next_scan by (rewrite ?Hat; assumption).
  rewrite Hsel, resume_pred by lia.
  unfold scanned. rewrite Hat, inspected_length, Hsel, Hhead.
  rewrite flat_map_nil by (intros; apply optionsOf_HEAD).
  rewrite app_nil_r. reflexivity.
Qed.

Lemma closures_push_lookup w c :
  closures (set_closures w (closures w ++ [c])) !! length (closures w) = Some c.
Proof. cbn [set_closures closures]. apply list_lookup_middle. reflexivity. Qed.

(** The first call of [next] in [route]. *)
Lemma route_step this done w :
  let fid := length (closures w) in
  let w0 := set_closures w (closures w ++ [mkClosure 0 []]) in
  let done' :=
    if String.eqb (Method (req w)) "OPTIONS" then replyOptions done fid else done in
  let method := Method (req w) in
  let path := trimmed this w in
  Router_route this done w
  = if (length (stack this) =? 0)%nat || String.eqb path "" then done' None w0
    else
      match list_find (fun l => usable method path l = true) (stack this) with
      | Some (k, l) =>
          handler l (next this done' fid (length (stack this) - 1))
            (set_req
               (set_closure w0 fid
                  (mkClosure (S k)
                     (flat_map (optionsOf method path) (take (S k) (stack this)))))
               (registerParamsAsQuery l (req w) (fst (layer_match l path))))
      | None =>
          done' None
            (set_closure w0 fid
               (mkClosure (length (stack this))
                  (flat_map (optionsOf method path) (stack this))))
      end.
Proof.
  intros fid w0 done' method path. unfold Router_route. fold fid w0.
  change (req w0) with (req w). fold done'.
  pose proof (closures_push_lookup w (mkClosure 0 [])) as Hc. fold fid w0 in Hc.
  pose proof (closure_at_lookup _ _ _ Hc) as Hat.
  destruct (length (stack this) =? 0)%nat eqn:Hlen; cbn [orb].
  { apply Nat.eqb_eq in Hlen. apply next_exhausted. rewrite Hlen. lia. }
  apply Nat.eqb_neq in Hlen.
  destruct (String.eqb path "") eqn:Hpath.
  { apply String.eqb_eq in Hpath. apply next_empty_path. exact Hpath. }
  apply String.eqb_neq in Hpath.
  rewrite next_scan by (rewrite ?Hat; cbn [idx]; first [lia | exact Hpath]).
  unfold scanned. rewrite inspected_length. unfold inspected, selected, ahead.
  rewrite Hat. cbn [idx allowOptionsMethods app Nat.add]. rewrite !drop_0.
  change (trimmed this w0) with path. change (req w0) with (req w). fold method.
  destruct (list_find _ (stack this)) as [[k l]|].
  - rewrite resume_pred by lia. reflexivity.
  - reflexivity.
Qed.

(** C1, amended.  When the request path does not start with the router's
    prefix, [route] matches the layers against the full request path: it
    runs the handler of the earliest layer that is a usable match for the
    full path, and goes to the terminal callback without running a
    handler only when the stack is empty, the path is empty or no layer
    is a usable match for the full path. *)
Theorem route_outside_prefix this done w :
  strings.HasPrefix (URL_Path (req w)) (routerPrefix this) = false ->
  let fid := length (closures w) in
  let w0 := set_closures w (closures w ++ [mkClosure 0 []]) in
  let done' :=
    if String.eqb (Method (req w)) "OPTIONS" then replyOptions done fid else done in
  let method := Method (req w) in
  let path := URL_Path (req w) in
  Router_route this done w
  = if (length (stack this) =? 0)%nat || String.eqb path "" then done' None w0
    else
      match list_find (fun l => usable method path l = true) (stack this) with
      | Some (k, l) =>
          handler l (next this done' fid (length (stack this) - 1))
            (set_req
               (set_closure w0 fid
                  (mkClosure (S k)
                     (flat_map (optionsOf method path) (take (S k) (stack this)))))
               (registerParamsAsQuery l (req w) (fst (layer_match l path))))
      | None =>
          done' None
            (set_closure w0 fid
               (mkClosure (length (stack this))
                  (flat_map (optionsOf method path) (stack this))))
      end.
Proof.
  intros Hprefix fid w0 done' method path.
  rewrite route_step. fold fid w0 done' method.
  unfold trimmed. rewrite (stripPrefix_None_TrimPrefix _ _ Hprefix). reflexivity.
Qed.

(** C2, amended.  [ServeHTTP] and [HTTPHandle] both enter [route], which
    wraps the callback of an [OPTIONS] request for a nested router as for
    the root.  When the scan of a router exhausts, a router entered with
    another method calls the continuation it was given; one entered with
    [OPTIONS] calls it when there is an error or it accumulated no
    method, and otherwise writes the [Allow] reply itself and calls the
    continuation only if encoding fails. *)
Theorem options_reply_in_every_router this done :
  (forall rw rq,
     ServeHTTP this rw rq = Router_HTTPHandle this ServeHTTP_done (mkWorld rq rw []))
  /\ (forall w,
       let fid := length (closures w) in
       Router_HTTPHandle this done w
       = next this
           (if String.eqb (Method (req w)) "OPTIONS" then replyOptions done fid else done)
           fid (length (stack this)) None
           (set_closures w (closures w ++ [mkClosure 0 []])))
  /\ forall fid n err w,
       idx (closure_at w fid) < length (stack this) ->
       trimmed this w <> "" ->
       selected this fid w = None ->
       let w' := scanned this fid w in
       let allow := allowOptionsMethods (closure_at w' fid) in
       let replied := set_res w' (http.Header_Add (res w') "Allow" (strings.Join allow ",")) in
       next this done fid n err w = done err w'
       /\ next this (replyOptions done fid) fid n err w
          = match err, allow with
            | None, _ :: _ =>
                match json_Marshal allow with
                | inl data => set_res replied (http.Write (res replied) data)
                | inr e => done (Some e) replied
                end
            | _, _ => done err w'
            end.
Proof.
  split; [reflexivity|]. split; [reflexivity|].
  intros fid n err w Hlt Hpath Hsel w' allow replied.
  rewrite !next_scan by assumption. rewrite Hsel.
  assert (Hdone : forall k : Next,
            match err with Some _ | None => k err (scanned this fid w) end = k err w')
    by (intros k; destruct err; reflexivity).
  rewrite !Hdone. split; [reflexivity|].
  unfold replyOptions. fold allow. fold replied.
  destruct err as [e|]; cbn.
  - reflexivity.
  - destruct allow; reflexivity.
Qed.


Lemma Use_loop_spec path handlers : forall this,
  Use_loop path this handlers
  = (mkRouter
       (stack this
        ++ map (fun h => mkLayer path (HTTPHandle (withRouterPrefix this path h)) false None)
             handlers)
       (routerPrefix this),
     map (withRouterPrefix this path) handlers).
Proof.
  induction handlers as [|h handlers IH]; intros this; cbn [Use_loop map].
  - rewrite app_nil_r. destruct this; reflexivity.
  - unfold Use_step. rewrite IH. cbn [stack routerPrefix].
    rewrite <- app_assoc. reflexivity.
Qed.

Lemma find_single {A} (P : A -> Prop) `{forall x, Decision (P x)} (x : A) :
  list_find P [x] = if decide (P x) then Some (0, x) else None.
Proof. cbn. destruct (decide (P x)); reflexivity. Qed.

(** C7.  [Use] appends one layer per handler under the path ([/] when
    empty), and a handler that is a router gets the receiver's prefix
    followed by that path as its prefix.  With router B holding a route
    at [/users] and mounted at [/api] under a fresh router A, a request
    for [/api/users] reaches the route's handler from A's root dispatch,
    and a request for [/users] ends in the not-found callback. *)
Theorem Use_composes_prefix :
  (forall this path handlers,
     let path' := if String.eqb path "" then "/" else path in
     Router_Use this path handlers
     = (mkRouter
          (stack this
           ++ map (fun h =>
                     mkLayer path' (HTTPHandle (withRouterPrefix this path' h)) false None)
                handlers)
          (routerPrefix this),
        map (withRouterPrefix this path') handlers)
     /\ forall r,
          withRouterPrefix this path' (RouterPtr r)
          = RouterPtr (mkRouter (stack r) (routerPrefix this +:+ path')))
  /\ forall B rt rw method q,
       let B' := mkRouter (stack B) "/api" in
       let mounted := mkLayer "/api" (Router_HTTPHandle B') false None in
       let users := routeLayer "/users" rt in
       let A := fst (Router_Use NewRouter "/api" [RouterPtr B]) in
       let doneA :=
         if String.eqb method "OPTIONS" then replyOptions ServeHTTP_done 0
         else ServeHTTP_done in
       let doneB :=
         if String.eqb method "OPTIONS" then replyOptions (next A doneA 0 0) 1
         else next A doneA 0 0 in
       stack B = [users] ->
       snd (layer_match mounted "/api/users") = true ->
       snd (layer_match mounted "/users") = false ->
       snd (layer_match users "/users") = true ->
       handlesMethod rt method = true ->
       (forall l rq v, Method (registerParamsAsQuery l rq v) = Method rq
                       /\ URL_Path (registerParamsAsQuery l rq v) = URL_Path rq) ->
       (let rq := mkRequest method "/api/users" q in
        let rq1 := registerParamsAsQuery mounted rq (fst (layer_match mounted "/api/users")) in
        let rq2 := registerParamsAsQuery users rq1 (fst (layer_match users "/users")) in
        ServeHTTP A rw rq
        = Route_HTTPHandle rt (next B' doneB 1 0)
            (mkWorld rq2 rw [mkClosure 1 []; mkClosure 1 []]))
       /\ (let rq := mkRequest method "/users" q in
           ServeHTTP A rw rq = mkWorld rq (http.NotFound rw) [mkClosure 1 []]).
Proof.
  split.
  - intros this path handlers path'. split; [apply Use_loop_spec|reflexivity].
  - intros B rt rw method q B' mounted users A doneA doneB
           HB Hin Hout Husers Hhandles Hkeep.
    assert (HA : A = mkRouter [mounted] "") by reflexivity.
    assert (Hum : forall path, usable method path mounted = snd (layer_match mounted path))
      by (intros; unfold usable; cbn [route mounted]; apply andb_true_r).
    assert (Huu : usable method "/users" users = true).
    { unfold usable. rewrite Husers. cbn [users routeLayer set_route route].
      rewrite Hhandles. reflexivity. }
    assert (Hom : forall path, optionsOf method path mounted = []) by reflexivity.
    assert (Hou : optionsOf method "/users" users = []).
    { unfold optionsOf. cbn [users routeLayer set_route route].
      rewrite Hhandles, andb_false_r. reflexivity. }
    split.
    + intros rq rq1 rq2.
      destruct (Hkeep mounted rq (fst (layer_match mounted "/api/users"))) as [Hm Hp].
      fold rq1 in Hm, Hp. cbn [Method URL_Path rq] in Hm, Hp.
      transitivity (Router_HTTPHandle B' (next A doneA 0 0)
                      (mkWorld rq1 rw [mkClosure 1 []])).
      * unfold ServeHTTP. rewrite route_step, HA.
        cbn [stack length Nat.eqb orb req closures Method routerPrefix].
        change (trimmed (mkRouter [mounted] "") (mkWorld rq rw [])) with "/api/users".
        cbn [String.eqb Ascii.eqb Bool.eqb].
        rewrite find_single, Hum, Hin, decide_True by reflexivity.
        cbn [take flat_map]. rewrite Hom. reflexivity.
      * unfold Router_HTTPHandle. rewrite route_step.
        unfold trimmed. cbn [req closures routerPrefix stack B' length].
        rewrite Hm, Hp, HB.
        change (strings.TrimPrefix "/api/users" "/api") with "/users".
        cbn [String.eqb Ascii.eqb Bool.eqb length Nat.eqb orb].
        rewrite find_single, Huu, decide_True by reflexivity.
        cbn [take flat_map]. rewrite Hou. reflexivity.
    + intros rq. unfold ServeHTTP. rewrite route_step, HA.
      cbn [stack length Nat.eqb orb req closures Method routerPrefix].
      change (trimmed (mkRouter [mounted] "") (mkWorld rq rw [])) with "/users".
      cbn [String.eqb Ascii.eqb Bool.eqb].
      rewrite find_single, Hum, Hout, decide_False by discriminate.
      cbn [flat_map]. rewrite Hom. cbn [app rq Method].
      destruct (String.eqb method "OPTIONS"); reflexivity.
Qed.

(** ** The recursion measure of [next] *)

Lemma respectful_func h : respectful (HTTPHandleFunc_HTTPHandle h).
Proof.
  intros P k1 k2 HP Hk1 Hagree.
  induction h as [|err k IH|f k IH|k IH]; intros w Hw; cbn.
  - reflexivity.
  - rewrite <- (Hagree err w Hw). apply IH. eapply HP; [apply Hk1|exact Hw].
  - destruct (f (req w) (res w)) as [rq rs]. apply IH.
    eapply HP; [|exact Hw]. apply forward_same_closures. reflexivity.
  - apply IH. exact Hw.
Qed.

Lemma plain_func h : plain (HTTPHandleFunc_HTTPHandle h).
Proof. split; [apply forwardHandler_func|apply respectful_func]. Qed.

Lemma plain_forward (ls : list (layer Route)) :
  Forall (fun l => plain (handler l)) ls ->
  Forall (fun l => forwardHandler (handler l)) ls.
Proof. intros Hls. eapply Forall_impl; [exact Hls|]. intros l [Hf _]. exact Hf. Qed.

Lemma replyOptions_agree (P : world -> Prop) k1 k2 fid :
  upward P ->
  (forall err w, P w -> k1 err w = k2 err w) ->
  forall err w, P w -> replyOptions k1 fid err w = replyOptions k2 fid err w.
Proof.
  intros HP Hagree err w Hw. unfold replyOptions.
  destruct (bool_decide (is_Some err) || _); [apply Hagree, Hw|].
  destruct (json_Marshal _); [reflexivity|].
  apply Hagree. eapply HP; [|exact Hw]. apply forward_same_closures. reflexivity.
Qed.

(** [next] uses [done] only by calling it. *)
Lemma next_agree this fid (P : world -> Prop) k1 k2 :
  Forall (fun l => plain (handler l)) (stack this) ->
  upward P -> forwardNext k1 ->
  (forall err w, P w -> k1 err w = k2 err w) ->
  forall n err w, P w -> next this k1 fid n err w = next this k2 fid n err w.
Proof.
  intros Hstack HP Hk1 Hagree.
  assert (Hscanned : forall w, P w -> P (scanned this fid w))
    by (intros w Hw; eapply HP; [apply forward_scanned|exact Hw]).
  induction n as [|n IH]; intros err w Hw.
  all: destruct (le_lt_dec (length (stack this)) (idx (closure_at w fid))) as [Hlen|Hlen];
    [rewrite !next_exhausted by assumption; apply Hagree, Hw|].
  all: destruct (decide (trimmed this w = "")) as [Hpath|Hpath];
    [rewrite !next_empty_path by assumption; apply Hagree, Hw|].
  all: rewrite !next_scan by assumption.
  all: destruct err as [e|]; [apply Hagree, Hscanned, Hw|].
  all: destruct (selected this fid w) as [[k l]|] eqn:Hsel;
    [|apply Hagree, Hscanned, Hw].
  all: apply selected_in_stack in Hsel as (Hl & _).
  all: rewrite Forall_lookup in Hstack; destruct (Hstack _ _ Hl) as [_ Hresp].
  all: assert (Hw' : P (set_req (scanned this fid w)
                         (registerParamsAsQuery l (req w)
                            (fst (layer_match l (trimmed this w))))))
    by (eapply HP; [|apply Hscanned, Hw]; apply forward_same_closures; reflexivity).
  all: apply (Hresp P _ _ HP); [| |exact Hw'].
  - intros ? w'. apply forward_refl.
  - reflexivity.
  - apply forwardNext_next; [|assumption].
    apply plain_forward. rewrite Forall_lookup. exact Hstack.
  - intros err' w' Hw''. apply IH. exact Hw''.
Qed.

Lemma plain_Router this :
  Forall (fun l => plain (handler l)) (stack this) -> plain (Router_HTTPHandle this).
Proof.
  intros Hstack. split; [apply forwardHandler_Router, plain_forward, Hstack|].
  intros P k1 k2 HP Hk1 Hagree w Hw. unfold Router_HTTPHandle, Router_route.
  assert (Hw0 : P (set_closures w (closures w ++ [mkClosure 0 []])))
    by (eapply HP; [apply forward_push|exact Hw]).
  cbn [req set_closures].
  destruct (String.eqb (Method (req w)) "OPTIONS").
  - apply (next_agree this _ P); try assumption.
    + apply forwardNext_replyOptions, Hk1.
    + apply replyOptions_agree; assumption.
  - apply (next_agree this _ P); assumption.
Qed.

(** The recursion measure of [next] never runs out: from a cursor with at
    most [n] layers ahead, a larger measure gives the same world. *)
Theorem next_measure this done fid :
  Forall (fun l => plain (handler l)) (stack this) ->
  forwardNext done ->
  forall n m err w c,
    closures w !! fid = Some c ->
    length (stack this) <= idx c + n ->
    next this done fid (n + m) err w = next this done fid n err w.
Proof.
  intros Hstack Hdone. induction n as [|n IH]; intros m err w c Hc Hn.
  all: pose proof (closure_at_lookup _ _ _ Hc) as Hat.
  { rewrite !next_exhausted by (rewrite Hat; lia). reflexivity. }
  destruct (le_lt_dec (length (stack this)) (idx c)) as [Hlen|Hlen];
    [rewrite !next_exhausted by (rewrite Hat; lia); reflexivity|].
  destruct (decide (trimmed this w = "")) as [Hpath|Hpath];
    [rewrite !next_empty_path by assumption; reflexivity|].
  rewrite !next_scan by (rewrite ?Hat; assumption).
  destruct err as [e|]; [reflexivity|].
  destruct (selected this fid w) as [[k l]|] eqn:Hsel; [|reflexivity].
  cbn [Nat.add resume].
  pose proof Hsel as Hin. apply selected_in_stack in Hin as (Hl & _).
  pose proof Hstack as Hall. rewrite Forall_lookup in Hall.
  destruct (Hall _ _ Hl) as [_ Hresp].
  apply (Hresp (fun w => exists c, closures w !! fid = Some c
                                   /\ length (stack this) <= idx c + n)).
  - intros w1 w2 Hfwd (c1 & Hc1 & Hn1).
    destruct (Hfwd fid c1 Hc1) as (c2 & Hc2 & Hle). exists c2. split; [assumption|lia].
  - apply forwardNext_next; [apply plain_forward, Hstack|assumption].
  - intros err' w' (c' & Hc' & Hn'). apply (IH m err' w' c'); assumption.
  - exists (mkClosure (idx c + length (inspected this fid w))
              (allowOptionsMethods c
               ++ flat_map (optionsOf (Method (req w)) (trimmed this w))
                    (inspected this fid w))).
    split.
    + unfold scanned. rewrite Hat. cbn [set_req set_closure set_closures closures].
      apply list_lookup_insert_eq. eapply lookup_lt_Some; eassumption.
    + cbn [idx]. rewrite inspected_length, Hsel. lia.
Qed.

End RouterFacts.

(** * The theorems at work on the example routers *)

Section ModelledFacts.

Import Examples.
#[local] Existing Instance Modelled.collaborators.

Lemma forwardNext_runChain hs next :
  Forall forwardHandler hs -> forwardNext next -> forwardNext (Modelled.runChain hs next).
Proof.
  intros Hhs Hnext. induction Hhs as [|h hs Hh _ IH]; cbn [Modelled.runChain]; [assumption|].
  intros [e|] w; [apply Hnext|apply Hh, IH].
Qed.

Lemma forwardHandler_Route (rt : Modelled.Route) :
  Forall (fun mh => forwardHandler (snd mh)) (Modelled.methodHandlers rt) ->
  forwardHandler (Modelled.Route_HTTPHandle rt).
Proof.
  intros Hrt next Hnext w. unfold Modelled.Route_HTTPHandle.
  apply forwardNext_runChain; [|assumption].
  unfold Modelled.chain. induction Hrt as [|mh mhs Hmh _ IH]; [constructor|].
  rewrite filter_cons. destruct (decide _); [constructor|]; assumption.
Qed.

(** C1 fails as stated: [usersFilterMounted] has the prefix [/api], the
    path [/users] is not under it, and yet the dispatch runs the handler
    of the layer at [/users] instead of going to the terminal callback. *)
Lemma route_outside_prefix_runs_handler :
  let this := usersFilterMounted in
  let rq := mkRequest "GET" "/users" [] in
  routerPrefix this = "/api"
  /\ strings.TrimPrefix (URL_Path rq) (routerPrefix this) = URL_Path rq
  /\ res (ServeHTTP this blank rq) = mkResponse [] (Some 200) ["users"]
  /\ ServeHTTP this blank rq <> ServeHTTP_done None (entered "GET" "/users").
Proof. vm_compute. repeat split. discriminate. Qed.

Lemma route_outside_prefix_witness :
  strings.HasPrefix (URL_Path (req (start "GET" "/users"))) (routerPrefix usersFilterMounted)
  = false
  /\ Router_route usersFilterMounted ServeHTTP_done (start "GET" "/users")
     = mkWorld (mkRequest "GET" "/users" []) (mkResponse [] (Some 200) ["users"])
         [mkClosure 1 []].
Proof.
  split; [reflexivity|].
  rewrite (route_outside_prefix usersFilterMounted ServeHTTP_done (start "GET" "/users"))
    by reflexivity.
  reflexivity.
Defined.

(** C2 fails as stated: the scan of [usersAPIMounted], a router nested
    under [/api], exhausts on an [OPTIONS] request, and the router writes
    the [Allow] reply itself without calling the continuation it was
    given; under [site] the filter registered after it never runs, while
    it does run for a [POST] request. *)
Lemma nested_router_replies_to_options :
  let w := entered "OPTIONS" "/api/users" in
  let rq := mkRequest "OPTIONS" "/api/users" [] in
  let reply := mkResponse [("Allow", "GET")] (Some 200) [encoded ["GET"]] in
  selected usersAPIMounted 0 w = None
  /\ Router_HTTPHandle usersAPIMounted (traced "parent") (start "OPTIONS" "/api/users")
     = mkWorld rq reply [mkClosure 1 ["GET"]]
  /\ res (ServeHTTP site blank rq) = reply
  /\ res (ServeHTTP site blank (mkRequest "POST" "/api/users" []))
     = mkResponse [] (Some 200) ["after"].
Proof. vm_compute. repeat split. Qed.

Lemma options_reply_in_every_router_witness :
  let this := usersAPIMounted in
  let w := entered "OPTIONS" "/api/users" in
  (idx (closure_at w 0) < length (stack this)
   /\ trimmed this w <> ""
   /\ selected this 0 w = None)
  /\ next this (traced "parent") 0 1 None w = traced "parent" None (scanned this 0 w)
  /\ next this (replyOptions (traced "parent") 0) 0 1 None w
     = mkWorld (req w) (mkResponse [("Allow", "GET")] (Some 200) [encoded ["GET"]])
         [mkClosure 1 ["GET"]].
Proof.
  intros this w.
  assert (Hlt : idx (closure_at w 0) < length (stack this)) by (vm_compute; lia).
  assert (Hpath : trimmed this w <> "") by (vm_compute; discriminate).
  assert (Hsel : selected this 0 w = None) by (vm_compute; reflexivity).
  split; [auto|].
  exact (proj2 (proj2 (options_reply_in_every_router this (traced "parent")))
           0 1 None w Hlt Hpath Hsel).
Defined.


(** The dispatch of [broken]: the first filter fails, the second never runs. *)
Example broken_is_short_circuited :
  res (ServeHTTP broken blank (mkRequest "GET" "/x" []))
  = http.Error blank "Something wrong" http.StatusInternalServerError.
Proof. reflexivity. Qed.

Lemma runChain_agree hs (P : world -> Prop) k1 k2 :
  Forall plain hs ->
  upward P -> forwardNext k1 ->
  (forall err w, P w -> k1 err w = k2 err w) ->
  forall err w, P w -> Modelled.runChain hs k1 err w = Modelled.runChain hs k2 err w.
Proof.
  intros Hhs HP Hk1 Hagree.
  induction Hhs as [|h hs [_ Hh] Hrest IH]; cbn [Modelled.runChain]; [assumption|].
  intros [e|] w Hw; [apply Hagree, Hw|].
  apply (Hh P _ _ HP); [|exact IH|exact Hw].
  apply forwardNext_runChain; [|assumption].
  eapply Forall_impl; [exact Hrest|]. intros ? [Hf _]. exact Hf.
Qed.

(** The Route of the specification is a handler like the others. *)
Lemma plain_Route (rt : Modelled.Route) :
  Forall (fun mh => plain (snd mh)) (Modelled.methodHandlers rt) ->
  plain (Modelled.Route_HTTPHandle rt).
Proof.
  intros Hrt.
  assert (Hchain : forall method, Forall plain (Modelled.chain rt method)).
  { intros method. unfold Modelled.chain.
    induction Hrt as [|mh mhs Hmh _ IH]; [constructor|].
    rewrite filter_cons. destruct (decide _); [constructor|]; assumption. }
  split.
  - apply forwardHandler_Route.
    eapply Forall_impl; [exact Hrt|]. intros ? [Hf _]. exact Hf.
  - intros P k1 k2 HP Hk1 Hagree w Hw. unfold Modelled.Route_HTTPHandle.
    apply (runChain_agree _ P); auto.
Qed.

Lemma forwardHandler_routeLayer path rt :
  Forall (fun mh => forwardHandler (snd mh)) (Modelled.methodHandlers rt) ->
  forwardHandler (handler (routeLayer path rt)).
Proof. apply forwardHandler_Route. Qed.

Lemma dispatch_in_registration_order_witness :
  let this := threeRoutes in
  let w := entered "GET" "/x" in
  (Forall (fun l => forwardHandler (handler l)) (stack this)
   /\ forwardNext ServeHTTP_done)
  /\ forwardNext (next this ServeHTTP_done 0 3)
  /\ stack this !! 1 = Some secondRoute
  /\ usable "GET" "/x" secondRoute = true
  /\ (forall j l', j < 1 -> stack this !! (0 + j) = Some l' -> usable "GET" "/x" l' = false)
  /\ idx (closure_at (scanned this 0 w) 0) = 2
  /\ next this ServeHTTP_done 0 3 None w
     = handler secondRoute (next this ServeHTTP_done 0 2)
         (set_req (scanned this 0 w) (registerParamsAsQuery secondRoute (req w) [])).
Proof.
  intros this w.
  assert (Hstack : Forall (fun l => forwardHandler (handler l)) (stack this)).
  { repeat constructor;
      (apply forwardHandler_routeLayer; repeat constructor; apply forwardHandler_func). }
  pose proof forwardNext_ServeHTTP_done as Hdone.
  destruct (dispatch_in_registration_order this ServeHTTP_done 0 3 Hstack Hdone)
    as [Hforward Hstep].
  specialize (Hstep w (mkClosure 0 []) eq_refl).
  assert (Hlt : idx (mkClosure 0 []) < length (stack this)) by (vm_compute; lia).
  assert (Hpath : trimmed this w <> "") by (vm_compute; discriminate).
  assert (Hn : length (stack this) <= idx (mkClosure 0 []) + 3) by (vm_compute; lia).
  specialize (Hstep Hlt Hpath Hn).
  destruct Hstep as (Hl & Hu & Hbefore & Hidx & _ & Hnext).
  repeat split; assumption.
Defined.


Lemma head_matches_any_route_witness :
  let this := postOnly in
  let w := entered "HEAD" "/x" in
  (Method (req w) = "HEAD"
   /\ closures w !! 0 = Some (mkClosure 0 [])
   /\ trimmed this w <> ""
   /\ length (stack this) <= 0 + 1
   /\ list_find (fun l => snd (layer_match l (trimmed this w)) = true)
        (drop 0 (stack this)) = Some (0, postLayer))
  /\ handlesMethod (Modelled.Route_method "POST" (Modelled.newRoute "/x")
                      [HTTPHandleFunc_HTTPHandle (say "post")]) "HEAD" = false
  /\ next this ServeHTTP_done 0 1 None w
     = handler postLayer (next this ServeHTTP_done 0 0)
         (set_req (set_closure w 0 (mkClosure 1 []))
            (registerParamsAsQuery postLayer (req w) [])).
Proof.
  intros this w.
  assert (Hpath : trimmed this w <> "") by (vm_compute; discriminate).
  assert (Hn : length (stack this) <= 0 + 1) by (vm_compute; lia).
  assert (Hfind : list_find (fun l => snd (layer_match l (trimmed this w)) = true)
                    (drop 0 (stack this)) = Some (0, postLayer)) by reflexivity.
  split; [repeat split; assumption|]. split; [reflexivity|].
  exact (head_matches_any_route this ServeHTTP_done 0 1 w (mkClosure 0 []) 0 postLayer
           eq_refl eq_refl Hpath Hn Hfind).
Defined.

(** A Route registered only for GET answers a HEAD request: its chain for
    HEAD is empty and the dispatch goes on to the not-found callback. *)
Example head_on_get_route :
  selected usersAPI 0 (entered "HEAD" "/users") = Some (0, routeLayer "/users" usersRoute)
  /\ Modelled.chain usersRoute "HEAD" = [].
Proof. split; reflexivity. Qed.

Lemma Use_composes_prefix_witness :
  let mounted : layer Route :=
    mkLayer "/api" (Router_HTTPHandle usersAPIMounted) false None in
  let users := routeLayer "/users" usersRoute in
  let A := fst (Router_Use NewRouter "/api" [RouterPtr usersAPI]) in
  (stack usersAPI = [users]
   /\ snd (layer_match mounted "/api/users") = true
   /\ snd (layer_match mounted "/users") = false
   /\ snd (layer_match users "/users") = true
   /\ handlesMethod usersRoute "GET" = true
   /\ (forall (l : layer Route) rq v,
         Method (registerParamsAsQuery l rq v) = Method rq
         /\ URL_Path (registerParamsAsQuery l rq v) = URL_Path rq))
  /\ ServeHTTP A blank (mkRequest "GET" "/api/users" [])
     = mkWorld (mkRequest "GET" "/api/users" []) (mkResponse [] (Some 200) ["list"])
         [mkClosure 1 []; mkClosure 1 []]
  /\ ServeHTTP A blank (mkRequest "GET" "/users" [])
     = mkWorld (mkRequest "GET" "/users" []) (http.NotFound blank) [mkClosure 1 []].
Proof.
  intros mounted users A.
  assert (Hkeep : forall (l : layer Route) rq v,
             Method (registerParamsAsQuery l rq v) = Method rq
             /\ URL_Path (registerParamsAsQuery l rq v) = URL_Path rq)
    by (intros; split; reflexivity).
  split; [repeat split; solve [reflexivity | apply Hkeep]|].
  exact (proj2 Use_composes_prefix usersAPI usersRoute blank "GET" []
           eq_refl eq_refl eq_refl eq_refl eq_refl Hkeep).
Defined.

Lemma options_encoding_failure_witness :
  let w := mkWorld (mkRequest "OPTIONS" "/x" []) blank [mkClosure 1 ["GET"]] in
  let w' := set_res w (http.Header_Add blank "Allow" "GET") in
  (allowOptionsMethods (closure_at w 0) <> []
   /\ Modelled.json_Marshal_failing ["GET"] = inr "json: unsupported value")
  /\ @replyOptions Modelled.failing ServeHTTP_done 0 None w
     = ServeHTTP_done (Some "json: unsupported value") w'
  /\ Body (res w') = Body (res w).
Proof.
  intros w w'.
  assert (Hallow : allowOptionsMethods (closure_at w 0) <> []) by discriminate.
  split; [split; [exact Hallow|reflexivity]|].
  exact (@options_encoding_failure Modelled.failing ServeHTTP_done 0 w
           "json: unsupported value" Hallow eq_refl).
Defined.

Lemma next_at_mount_prefix_witness :
  let this := rootFilterMounted in
  let w := start "GET" "/api" in
  strings.TrimPrefix (URL_Path (req w)) (routerPrefix this) = ""
  /\ (forall fid n err, next this ServeHTTP_done fid n err w = ServeHTTP_done err w)
  /\ Router_route this ServeHTTP_done w
     = Router_route (mkRouter [] (routerPrefix this)) ServeHTTP_done w.
Proof.
  intros this w. split; [reflexivity|].
  exact (next_at_mount_prefix this ServeHTTP_done w eq_refl).
Defined.

(** The filter at [/] of [rootFilterMounted] matches every path, yet a
    request for the mount prefix itself ends in the not-found callback. *)
Example mount_prefix_is_not_found :
  Forall (fun l => snd (layer_match l "/") = true) (stack rootFilterMounted)
  /\ res (ServeHTTP rootFilterMounted blank (mkRequest "GET" "/api" []))
     = http.NotFound blank
  /\ res (ServeHTTP rootFilterMounted blank (mkRequest "GET" "/api/" []))
     = mkResponse [] (Some 200) ["root"].
Proof. repeat split. repeat constructor. Qed.

End ModelledFacts.

(** * Further properties of the registration and the dispatch *)

Section MoreFacts.

Context `{Collaborators}.

(** *** Registration *)

Lemma Router_Use_spec this path handlers :
  let path' := if String.eqb path "" then "/" else path in
  Router_Use this path handlers
  = (mkRouter
       (stack this
        ++ map (fun h => mkLayer path' (HTTPHandle (withRouterPrefix this path' h)) false None)
             handlers)
       (routerPrefix this),
     map (withRouterPrefix this path') handlers).
Proof. apply Use_loop_spec. Qed.

(** X1.  [Use] with the handlers [handlers1] followed by [handlers2] does
    what [Use] with [handlers1] and then [Use] with [handlers2] on the
    result do, for the receiver and for the handlers it leaves behind. *)
Theorem Use_app this path handlers1 handlers2 :
  Router_Use this path (handlers1 ++ handlers2)
  = let '(this1, out1) := Router_Use this path handlers1 in
    let '(this2, out2) := Router_Use this1 path handlers2 in
    (this2, out1 ++ out2).
Proof.
  rewrite (Router_Use_spec this path handlers1). cbn zeta.
  rewrite !Router_Use_spec. cbn zeta.
  cbn [stack routerPrefix]. rewrite !map_app, app_assoc. reflexivity.
Qed.

(** X2.  [UseFunc] registers what [Use] registers for the same functions
    taken as handlers, in the same order. *)
Theorem UseFunc_is_Use this path handlers :
  Router_UseFunc this path handlers
  = fst (Router_Use this path (map FuncValue handlers)).
Proof.
  unfold Router_UseFunc. revert this.
  induction handlers as [|h handlers IH]; intros this.
  - rewrite Router_Use_spec. cbn. rewrite app_nil_r. destruct this; reflexivity.
  - cbn [fold_left map]. rewrite IH.
    change (FuncValue h :: map FuncValue handlers)
      with ([FuncValue h] ++ map FuncValue handlers).
    rewrite Use_app.
    destruct (Router_Use this path [FuncValue h]) as [this1 out1]. cbn [fst].
    destruct (Router_Use this1 path (map FuncValue handlers)) as [this2 out2].
    reflexivity.
Qed.

Lemma extends_refl this : extends this this 0.
Proof. exists []. rewrite app_nil_r. auto. Qed.

Lemma extends_trans this1 this2 this3 j k :
  extends this1 this2 j -> extends this2 this3 k -> extends this1 this3 (j + k).
Proof.
  intros (m1 & Hs1 & Hl1 & Hp1) (m2 & Hs2 & Hl2 & Hp2). exists (m1 ++ m2).
  rewrite Hs2, Hs1, <- app_assoc, length_app. repeat split; congruence.
Qed.

Lemma extends_addHandler this method path handlers :
  extends this (Router_addHandler this method path handlers) 1.
Proof. unfold Router_addHandler. eexists [_]. cbn. auto. Qed.

Lemma extends_fold {A} (f : Router -> A -> Router) (xs : list A) :
  (forall this x, extends this (f this x) 1) ->
  forall this, extends this (fold_left f xs this) (length xs).
Proof.
  intros Hf. induction xs as [|x xs IH]; intros this; cbn [fold_left length].
  - apply extends_refl.
  - change (S (length xs)) with (1 + length xs).
    eapply extends_trans; [apply Hf|apply IH].
Qed.

(** X3.  The registration calls that do not assign a prefix -- [UseFunc],
    [Route], [addHandler] with the method calls built on it, [All] and
    the function shorthands -- append to the stack and do nothing else:
    the layers already there stay, in their order, and the receiver's
    prefix stays.  [UseFunc] and the function shorthands append one layer
    per handler, the others exactly one. *)
Theorem registration_extends this path :
  (forall handlers, extends this (Router_UseFunc this path handlers) (length handlers))
  /\ extends this (fst (Router_Route this path)) 1
  /\ (forall method handlers, extends this (Router_addHandler this method path handlers) 1)
  /\ (forall handlers,
        extends this (Router_GET this path handlers) 1
        /\ extends this (Router_POST this path handlers) 1
        /\ extends this (Router_PUT this path handlers) 1
        /\ extends this (Router_DELETE this path handlers) 1
        /\ extends this (Router_HEAD this path handlers) 1)
  /\ (forall handlers, extends this (Router_All this path handlers) 1)
  /\ (forall handlers,
        extends this (Router_GETFunc this path handlers) (length handlers)
        /\ extends this (Router_POSTFunc this path handlers) (length handlers)
        /\ extends this (Router_PUTFunc this path handlers) (length handlers)
        /\ extends this (Router_DELETEFunc this path handlers) (length handlers)
        /\ extends this (Router_HEADFunc this path handlers) (length handlers)).
Proof.
  assert (HUse : forall this handlers,
             extends this (fst (Router_Use this path handlers)) (length handlers)).
  { intros this' handlers. rewrite Router_Use_spec. cbn [fst].
    eexists. cbn [stack routerPrefix]. split; [reflexivity|].
    rewrite length_map. auto. }
  repeat split.
  - intros handlers. rewrite UseFunc_is_Use.
    rewrite <- (length_map FuncValue handlers). apply HUse.
  - eexists [_]. cbn. auto.
  - intros. apply extends_addHandler.
  - apply extends_addHandler.
  - apply extends_addHandler.
  - apply extends_addHandler.
  - apply extends_addHandler.
  - apply extends_addHandler.
  - intros. eexists [_]. cbn. auto.
  - apply extends_fold. intros. apply extends_addHandler.
  - apply extends_fold. intros. apply extends_addHandler.
  - apply extends_fold. intros. apply extends_addHandler.
  - apply extends_fold. intros. apply extends_addHandler.
  - apply extends_fold. intros. apply extends_addHandler.
Qed.

Lemma fold_left_snoc {A} (f : A -> layer Route) (xs : list A) : forall this,
  fold_left (fun this x => mkRouter (stack this ++ [f x]) (routerPrefix this)) xs this
  = mkRouter (stack this ++ map f xs) (routerPrefix this).
Proof.
  induction xs as [|x xs IH]; intros this; cbn [fold_left map].
  - rewrite app_nil_r. destruct this; reflexivity.
  - rewrite IH. cbn [stack routerPrefix]. rewrite <- app_assoc. reflexivity.
Qed.

(** X4.  A function shorthand ([GETFunc], ...) gives every handler a
    layer and a Route of its own, in the order of the handlers, and
    registers nothing when there is no handler; [GET] puts all its
    handlers in the one Route of one layer, also when there is none. *)
Theorem methodFunc_one_route_each this path handlers :
  let each method :=
    mkRouter
      (stack this
       ++ map (fun h => methodLayer method path [HTTPHandleFunc_HTTPHandle h]) handlers)
      (routerPrefix this) in
  Router_GETFunc this path handlers = each "GET"
  /\ Router_POSTFunc this path handlers = each "POST"
  /\ Router_PUTFunc this path handlers = each "PUT"
  /\ Router_DELETEFunc this path handlers = each "DELETE"
  /\ Router_HEADFunc this path handlers = each "HEAD"
  /\ forall hs,
       Router_GET this path hs
       = mkRouter (stack this ++ [methodLayer "GET" path hs]) (routerPrefix this).
Proof.
  intros each. repeat split; try reflexivity.
  all: apply (fold_left_snoc
                (fun h => methodLayer _ path [HTTPHandleFunc_HTTPHandle h])).
Qed.

(** *** The loop of [next] *)

(** X6.  The loop of [next] keeps the cursor within the stack and moves
    it when a layer is left.  When it ends with a match, [l] is a layer,
    the one just behind the cursor, and [urlParams] are the parameters of
    its match with the path; when it ends without, the cursor is at the
    end of the stack. *)
Theorem scan_in_bounds rest method path st :
  s_match st = false ->
  let r := scan rest method path st in
  s_idx st <= s_idx r <= s_idx st + length rest
  /\ (rest <> [] -> s_idx st < s_idx r)
  /\ (s_match r = true ->
      exists l, s_l r = Some l
                /\ rest !! (s_idx r - s_idx st - 1) = Some l
                /\ layer_match l path = (s_urlParams r, true))
  /\ (s_match r = false -> s_idx r = s_idx st + length rest).
Proof.
  intros Hst r. subst r.
  pose proof (scan_spec rest method path st Hst) as Hscan.
  destruct (list_find _ rest) as [[k l]|] eqn:Hfind.
  - apply list_find_Some in Hfind as (Hl & Hu & _).
    pose proof (lookup_lt_Some _ _ _ Hl) as Hk.
    rewrite Hscan. cbn [s_idx s_match s_l s_urlParams].
    split; [lia|]. split; [intros _; lia|]. split; [|discriminate].
    intros _. exists l. replace (s_idx st + S k - s_idx st - 1) with k by lia.
    split; [reflexivity|]. split; [assumption|].
    unfold usable in Hu. destruct (layer_match l path) as [params m]. cbn [fst snd] in *.
    destruct m; [reflexivity|discriminate].
  - destruct Hscan as (Hi & Hm & _). rewrite Hi, Hm.
    split; [lia|]. split; [|split; [discriminate|reflexivity]].
    intros Hrest. destruct rest; [contradiction|cbn [length]; lia].
Qed.

(** X7.  When the loop finds a match among the layers [rest], layers
    registered behind them change nothing of its result: the same layer,
    cursor, parameters and allowed methods. *)
Theorem scan_stops_at_match rest more method path st :
  s_match st = false ->
  s_match (scan rest method path st) = true ->
  scan (rest ++ more) method path st = scan rest method path st.
Proof.
  revert st. induction rest as [|l rest IH]; intros st Hst Hfound.
  - cbn in Hfound. congruence.
  - cbn [scan app] in *. rewrite Hst in *.
    destruct (layer_match l path) as [params m].
    repeat match goal with
           | |- context [scan (rest ++ more) method path ?s] =>
               destruct (s_match s) eqn:Hs;
               [rewrite !(scan_matched _ _ _ s) by exact Hs
               |rewrite (IH s) by assumption];
               try reflexivity
           | |- context [match ?x with _ => _ end] => destruct x eqn:?; cbn in *
           end.
Qed.

(** X8.  For a request whose method is not [OPTIONS] the loop leaves
    [allowOptionsMethods] as it is. *)
Theorem allowed_methods_only_for_OPTIONS rest method path : forall st,
  String.eqb method "OPTIONS" = false ->
  s_allow (scan rest method path st) = s_allow st.
Proof.
  intros st Hm. revert st.
  induction rest as [|l rest IH]; intros st; [reflexivity|].
  cbn [scan]. destruct (s_match st); [reflexivity|].
  destruct (layer_match l path) as [params m].
  destruct m, (route l); rewrite ?Hm, ?andb_false_r, IH; reflexivity.
Qed.

(** *** Dispatch from [ServeHTTP] *)

Lemma unmatched_layers method path (ls : list (layer Route)) :
  Forall (fun l => snd (layer_match l path) = false) ls ->
  list_find (fun l => usable method path l = true) ls = None
  /\ flat_map (optionsOf method path) ls = [].
Proof.
  induction 1 as [|l ls Hl _ [IHfind IHmap]]; [split; reflexivity|].
  assert (Hu : usable method path l = false) by (unfold usable; rewrite Hl; reflexivity).
  assert (Ho : optionsOf method path l = [])
    by (unfold optionsOf; rewrite Hl; destruct (route l); reflexivity).
  split.
  - cbn [list_find]. rewrite decide_False by (rewrite Hu; discriminate).
    rewrite IHfind. reflexivity.
  - cbn [flat_map]. rewrite Ho, IHmap. reflexivity.
Qed.

Lemma replyOptions_nothing_allowed old fid w :
  allowOptionsMethods (closure_at w fid) = [] ->
  replyOptions old fid None w = old None w.
Proof. intros Hallow. unfold replyOptions. rewrite Hallow. reflexivity. Qed.

(** X9.  When no layer matches the trimmed path, [ServeHTTP] answers with
    [http.NotFound] and leaves the request as it came, whatever the
    method, [OPTIONS] included, and also for a router without layers. *)
Theorem unmatched_is_not_found this rw rq :
  Forall (fun l => snd (layer_match l (strings.TrimPrefix (URL_Path rq) (routerPrefix this)))
                   = false) (stack this) ->
  req (ServeHTTP this rw rq) = rq /\ res (ServeHTTP this rw rq) = http.NotFound rw.
Proof.
  intros Hstack. unfold ServeHTTP. rewrite route_step.
  cbn [req closures length].
  change (trimmed this (mkWorld rq rw []))
    with (strings.TrimPrefix (URL_Path rq) (routerPrefix this)).
  destruct (unmatched_layers (Method rq) _ _ Hstack) as [Hfind Hmap].
  rewrite Hfind, Hmap.
  destruct ((length (stack this) =? 0)%nat || String.eqb _ "");
    destruct (String.eqb (Method rq) "OPTIONS");
    rewrite ?replyOptions_nothing_allowed by reflexivity;
    split; reflexivity.
Qed.

(** X10.  Under [ServeHTTP] a continuation called with an error answers
    with status 500 and the text [Something wrong] on top of what was
    sent before; the request is unchanged and the response does not
    depend on which error it was. *)
Theorem served_error_is_500 k :
  continuation ServeHTTP_done k ->
  forall e w,
    req (k (Some e) w) = req w
    /\ res (k (Some e) w)
       = http.Error (res w) "Something wrong" http.StatusInternalServerError.
Proof.
  induction 1 as [|old fid _ IH|this done fid n _ IH]; intros e w.
  - split; reflexivity.
  - unfold replyOptions. rewrite bool_decide_eq_true_2 by eauto. apply IH.
  - rewrite next_error.
    destruct ((length (stack this) <=? idx (closure_at w fid))%nat
              || String.eqb (trimmed this w) "");
      [apply IH|exact (IH e (scanned this fid w))].
Qed.

Lemma filter_find_None {A} (P : A -> Prop) `{forall x, Decision (P x)} (xs : list A) :
  list_find P xs = None -> filter P xs = [].
Proof.
  intros Hnone. apply list_find_None in Hnone.
  induction Hnone as [|x xs Hx _ IH]; [reflexivity|].
  rewrite filter_cons_False by assumption. exact IH.
Qed.

Lemma filter_find_Some {A} (P : A -> Prop) `{forall x, Decision (P x)} (xs : list A) k x :
  list_find P xs = Some (k, x) -> filter P xs = x :: filter P (drop (S k) xs).
Proof.
  revert k. induction xs as [|y xs IH]; intros k Hfind; [discriminate|].
  cbn [list_find] in Hfind. destruct (decide (P y)) as [Hy|Hy].
  - injection Hfind as <- <-. rewrite filter_cons_True by assumption. reflexivity.
  - destruct (list_find P xs) as [[k' x']|] eqn:Hxs; [|discriminate].
    injection Hfind as <- <-. rewrite filter_cons_False by assumption.
    apply (IH k'). reflexivity.
Qed.

Lemma insert_last {A} (xs : list A) (x y : A) :
  <[length xs := y]> (xs ++ [x]) = xs ++ [y].
Proof.
  rewrite insert_app_r_alt by lia. rewrite Nat.sub_diag. reflexivity.
Qed.

Lemma optionsOf_other method path l :
  String.eqb method "OPTIONS" = false -> optionsOf method path l = [].
Proof.
  intros Hm. unfold optionsOf. destruct (route l); [|reflexivity].
  rewrite Hm, andb_false_r. reflexivity.
Qed.

(** X11.  A router whose handlers all only pass on, used as a handler for
    a request that is not [OPTIONS] and whose trimmed path is not empty,
    walks its stack to the end: with a registration of parameters that
    leaves method and path alone, it registers the parameters of every
    usable layer in registration order, leaves the cursor at the end of
    the stack with no method accumulated, and then calls the
    continuation it was given without error; nothing has been written to
    the response. *)
Theorem filters_pass_to_done this done w :
  let method := Method (req w) in
  let path := trimmed this w in
  Forall (fun l => passes (handler l)) (stack this) ->
  String.eqb method "OPTIONS" = false ->
  path <> "" ->
  (forall l rq v, Method (registerParamsAsQuery l rq v) = Method rq
                  /\ URL_Path (registerParamsAsQuery l rq v) = URL_Path rq) ->
  Router_HTTPHandle this done w
  = done None
      (mkWorld
         (fold_left (fun rq l => registerParamsAsQuery l rq (fst (layer_match l path)))
            (filter (fun l => usable method path l = true) (stack this)) (req w))
         (res w)
         (closures w ++ [mkClosure (length (stack this)) []])).
Proof.
  intros method path Hstack Hmethod Hpath Hkeep.
  unfold Router_HTTPHandle, Router_route. cbn [req set_closures].
  fold method. rewrite Hmethod.
  set (fid := length (closures w)).
  set (register := fun rq l => registerParamsAsQuery l rq (fst (layer_match l path))).
  assert (Hgo : forall n i rq1,
             length (stack this) <= i + n ->
             i <= length (stack this) ->
             Method rq1 = method ->
             URL_Path rq1 = URL_Path (req w) ->
             next this done fid n None (mkWorld rq1 (res w) (closures w ++ [mkClosure i []]))
             = done None
                 (mkWorld
                    (fold_left register
                       (filter (fun l => usable method path l = true) (drop i (stack this)))
                       rq1)
                    (res w)
                    (closures w ++ [mkClosure (length (stack this)) []]))).
  { induction n as [|n IH]; intros i rq1 Hn Hi Hm1 Hp1.
    all: set (w1 := mkWorld rq1 (res w) (closures w ++ [mkClosure i []])).
    all: assert (Hc : closures w1 !! fid = Some (mkClosure i []))
      by (apply list_lookup_middle; reflexivity).
    all: pose proof (closure_at_lookup _ _ _ Hc) as Hat.
    all: destruct (le_lt_dec (length (stack this)) i) as [Hlen|Hlen];
      [rewrite next_exhausted by (rewrite Hat; exact Hlen);
       rewrite drop_ge by exact Hlen;
       assert (Hend : i = length (stack this)) by lia;
       subst w1; rewrite Hend; reflexivity|].
    { lia. }
    assert (Htrim : trimmed this w1 = path)
      by (unfold trimmed, path; cbn [req w1]; rewrite Hp1; reflexivity).
    rewrite next_scan by (rewrite ?Hat, ?Htrim; assumption).
    assert (Hscanned : scanned this fid w1
                       = mkWorld rq1 (res w)
                           (closures w
                            ++ [mkClosure (i + length (inspected this fid w1)) []])).
    { unfold scanned. rewrite Hat. cbn [idx allowOptionsMethods req w1].
      rewrite flat_map_nil by (intros; apply optionsOf_other; rewrite Hm1; exact Hmethod).
      unfold set_closure, set_closures. cbn [req res closures w1].
      unfold fid. rewrite insert_last. reflexivity. }
    rewrite Hscanned, inspected_length.
    unfold selected, ahead. rewrite Hat, Htrim. cbn [idx req w1]. rewrite Hm1.
    destruct (list_find _ (drop i (stack this))) as [[k l]|] eqn:Hfind.
    - pose proof Hfind as Hl. apply list_find_Some in Hl as (Hl & _).
      rewrite lookup_drop in Hl.
      pose proof (lookup_lt_Some _ _ _ Hl) as Hk.
      rewrite Forall_lookup in Hstack. rewrite (Hstack _ _ Hl). cbn [resume set_req req res closures].
      rewrite (filter_find_Some _ _ _ _ Hfind), drop_drop. cbn [fold_left].
      destruct (Hkeep l rq1 (fst (layer_match l path))) as [Hm2 Hp2].
      apply IH; [lia|lia|exact (eq_trans Hm2 Hm1)|exact (eq_trans Hp2 Hp1)].
    - rewrite (filter_find_None _ _ Hfind). cbn [fold_left].
      rewrite length_drop. replace (i + (length (stack this) - i)) with (length (stack this)) by lia.
      reflexivity. }
  specialize (Hgo (length (stack this)) 0 (req w)).
  rewrite drop_0 in Hgo.
  replace (mkWorld (req w) (res w) (closures w ++ [mkClosure 0 []]))
    with (set_closures w (closures w ++ [mkClosure 0 []])) in Hgo by reflexivity.
  apply Hgo; [lia|lia|reflexivity|reflexivity].
Qed.

Lemma TrimPrefix_app prefix rest : strings.TrimPrefix (prefix +:+ rest) prefix = rest.
Proof.
  unfold strings.TrimPrefix.
  assert (Hstrip : strings.stripPrefix prefix (prefix +:+ rest) = Some rest).
  { induction prefix as [|a prefix IH]; cbn [strings.stripPrefix String.append];
      [reflexivity|].
    change (String a prefix +:+ rest) with (String a (prefix +:+ rest)).
    cbv iota beta. rewrite Ascii.eqb_refl. exact IH. }
  rewrite Hstrip. reflexivity.
Qed.

(** X12.  After [Use] has mounted a router, for a request path made of
    the receiver's prefix, the mount path ([/] when empty) and a
    remainder, the mounted router matches its layers, which [Use] left
    as they were, against the remainder. *)
Theorem mounted_router_sees_rest this path r rest w :
  let path' := if String.eqb path "" then "/" else path in
  URL_Path (req w) = (routerPrefix this +:+ path') +:+ rest ->
  exists r',
    snd (Router_Use this path [RouterPtr r]) = [RouterPtr r']
    /\ stack r' = stack r
    /\ trimmed r' w = rest.
Proof.
  intros path' Hpath. rewrite Router_Use_spec. fold path'. cbn [snd map withRouterPrefix].
  eexists. split; [reflexivity|]. split; [reflexivity|].
  unfold trimmed. cbn [routerPrefix]. rewrite Hpath. apply TrimPrefix_app.
Qed.

End MoreFacts.

(** * The further properties on the example routers *)

Section MoreWitnesses.

Import Examples MoreExamples.
#[local] Existing Instance Modelled.collaborators.

Lemma scan_in_bounds_witness :
  let st := mkScan 0 false None [] [] in
  let r := scan (stack threeRoutes) "GET" "/x" st in
  s_match st = false
  /\ 0 <= s_idx r <= 0 + 3
  /\ (stack threeRoutes <> [] -> 0 < s_idx r)
  /\ (s_match r = true ->
      exists l, s_l r = Some l
                /\ stack threeRoutes !! (s_idx r - 0 - 1) = Some l
                /\ layer_match l "/x" = (s_urlParams r, true))
  /\ (s_match r = false -> s_idx r = 0 + 3).
Proof.
  intros st r. split; [reflexivity|].
  exact (scan_in_bounds (stack threeRoutes) "GET" "/x" st eq_refl).
Defined.

Lemma scan_stops_at_match_witness :
  let st := mkScan 0 false None [] [] in
  (s_match st = false /\ s_match (scan (stack threeRoutes) "GET" "/x" st) = true)
  /\ scan (stack threeRoutes ++ stack getAndPost) "GET" "/x" st
     = scan (stack threeRoutes) "GET" "/x" st.
Proof.
  intros st. split; [split; reflexivity|].
  exact (scan_stops_at_match (stack threeRoutes) (stack getAndPost) "GET" "/x" st
           eq_refl eq_refl).
Defined.

Lemma allowed_methods_only_for_OPTIONS_witness :
  let st := mkScan 0 false None [] ["kept"] in
  String.eqb "HEAD" "OPTIONS" = false
  /\ s_allow (scan (stack getAndPost) "HEAD" "/x" st) = ["kept"].
Proof.
  intros st. split; [reflexivity|].
  exact (allowed_methods_only_for_OPTIONS (stack getAndPost) "HEAD" "/x" st eq_refl).
Defined.

Lemma unmatched_is_not_found_witness :
  let rq := mkRequest "OPTIONS" "/nowhere" [] in
  Forall (fun l => snd (layer_match l
                          (strings.TrimPrefix (URL_Path rq) (routerPrefix threeRoutes)))
                   = false) (stack threeRoutes)
  /\ req (ServeHTTP threeRoutes blank rq) = rq
  /\ res (ServeHTTP threeRoutes blank rq) = http.NotFound blank.
Proof.
  intros rq.
  assert (Hstack : Forall (fun l => snd (layer_match l
                             (strings.TrimPrefix (URL_Path rq) (routerPrefix threeRoutes)))
                           = false) (stack threeRoutes))
    by (repeat constructor).
  split; [exact Hstack|].
  exact (unmatched_is_not_found threeRoutes blank rq Hstack).
Defined.

Lemma served_error_is_500_witness :
  let k := next broken ServeHTTP_done 0 1 in
  let w := entered "GET" "/x" in
  continuation ServeHTTP_done k
  /\ req (k (Some "boom") w) = req w
  /\ res (k (Some "boom") w)
     = http.Error (res w) "Something wrong" http.StatusInternalServerError.
Proof.
  intros k w.
  assert (Hk : continuation ServeHTTP_done k)
    by (apply continuation_next, continuation_final).
  split; [exact Hk|].
  exact (served_error_is_500 k Hk "boom" w).
Defined.

Lemma filters_pass_to_done_witness :
  let w := start "GET" "/x/y" in
  (Forall (fun l => passes (handler l)) (stack filters)
   /\ String.eqb (Method (req w)) "OPTIONS" = false
   /\ trimmed filters w <> ""
   /\ (forall (l : layer Route) rq v,
         Method (registerParamsAsQuery l rq v) = Method rq
         /\ URL_Path (registerParamsAsQuery l rq v) = URL_Path rq))
  /\ length (stack filters) = 3
  /\ Router_HTTPHandle filters (traced "parent") w
     = traced "parent" None (mkWorld (req w) (res w) [mkClosure 3 []]).
Proof.
  intros w.
  assert (Hstack : Forall (fun l => passes (handler l)) (stack filters))
    by (repeat constructor).
  assert (Hpath : trimmed filters w <> "") by (vm_compute; discriminate).
  assert (Hkeep : forall (l : layer Route) rq v,
             Method (registerParamsAsQuery l rq v) = Method rq
             /\ URL_Path (registerParamsAsQuery l rq v) = URL_Path rq)
    by (intros; split; reflexivity).
  split; [repeat split; solve [assumption | reflexivity | apply Hkeep]|].
  split; [reflexivity|].
  exact (filters_pass_to_done filters (traced "parent") w Hstack eq_refl Hpath Hkeep).
Defined.

Lemma mounted_router_sees_rest_witness :
  let w := start "GET" "/api/users" in
  URL_Path (req w) = (routerPrefix NewRouter +:+ "/api") +:+ "/users"
  /\ exists r',
       snd (Router_Use NewRouter "/api" [RouterPtr usersAPI]) = [RouterPtr r']
       /\ stack r' = stack usersAPI
       /\ trimmed r' w = "/users".
Proof.
  intros w. split; [reflexivity|].
  exact (mounted_router_sees_rest NewRouter "/api" usersAPI "/users" w eq_refl).
Defined.

End MoreWitnesses.
